(** * A shallow embedding of [astrodata/fits.py]

    The development follows the layout of the Python module: FITS
    headers and the keyword manipulator, index normalisation, the
    variance wrapper, the provider with its append protocol, the
    serialiser and the loader.  Python exceptions are values of [exn];
    methods that mutate a provider return the provider they leave
    behind next to their result. *)

From Stdlib Require Import ZArith Reals Lra Lia.
From stdpp Require Import base option list strings pretty gmap sorting.

Local Open Scope Z_scope.
Local Open Scope string_scope.
Local Open Scope list_scope.

(** ** Exceptions *)

(** Python values stored under a header keyword.  Python's [None]
    is the [None] of [option HVal]. *)
Inductive HVal :=
| HInt (z : Z)
| HStr (s : string).

#[global] Instance HVal_eq_dec : EqDecision HVal.
Proof. solve_decision. Defined.

(** Header values are hashable: they can be the keys of a dictionary. *)
#[global] Instance HVal_countable : Countable HVal.
Proof.
  refine (inj_countable'
            (fun v => match v with HInt z => inl z | HStr s => inr s end)
            (fun x => match x with inl z => HInt z | inr s => HStr s end) _).
  intros []; reflexivity.
Defined.

(** The exceptions raised in the module.  [KeyErrorAt] is the
    [KeyError] to which [FitsKeywordManipulator.__getitem__] attaches
    the attributes [missing_at] and [values]. *)
Inductive exn :=
| KeyError (msg : string)
| KeyErrorAt (missing_at : list nat) (values : list (option HVal))
| IndexError (msg : string)
| ValueError (msg : string)
| TypeError (msg : string)
| AssertionError (msg : string)
| AttributeError (msg : string).

Definition result (A : Type) : Type := exn + A.

Definition ok {A} (a : A) : result A := inr a.
Definition raise {A} (e : exn) : result A := inl e.

Definition rbind {A B} (m : result A) (k : A -> result B) : result B :=
  match m with
  | inl e => inl e
  | inr a => k a
  end.

Notation "x <-- m ;; k" := (rbind m (fun x => k))
  (at level 100, m at next level, right associativity).

(** A comprehension whose body may raise. *)
Fixpoint collect {A B} (f : A -> result B) (l : list A) : result (list B) :=
  match l with
  | [] => ok []
  | x :: l' => y <-- f x ;; ys <-- collect f l' ;; ok (y :: ys)
  end.

Definition index_error {A} (o : option A) : result A :=
  match o with
  | Some a => ok a
  | None => raise (IndexError "list index out of range")
  end.

(** ** Python lists *)

Module PyList.

(** [l[i]] with Python's negative indices; [None] is [IndexError]. *)
Definition norm_index (len : nat) (i : Z) : option nat :=
  if decide (0 <= i < Z.of_nat len) then Some (Z.to_nat i)
  else if decide (- Z.of_nat len <= i < 0) then Some (Z.to_nat (Z.of_nat len + i))
  else None.

Definition getitem {A} (l : list A) (i : Z) : option A :=
  n ← norm_index (length l) i; l !! n.

(** [del l[i]]. *)
Definition delitem {A} (l : list A) (i : Z) : option (list A) :=
  n ← norm_index (length l) i; Some (delete n l).

(** [l.index(x)]: the first position holding a value equal to [x]. *)
Fixpoint index `{EqDecision A} (l : list A) (x : A) : option nat :=
  match l with
  | [] => None
  | y :: l' => if decide (y = x) then Some 0%nat else S <$> index l' x
  end.

End PyList.

(** ** Headers *)

(** A header is the ordered sequence of its cards; comments are not
    modelled. *)
Definition Header : Type := list (string * HVal).

Module Hdr.

(** [header.get(key)] *)
Fixpoint get (h : Header) (key : string) : option HVal :=
  match h with
  | [] => None
  | (k, v) :: h' => if decide (k = key) then Some v else get h' key
  end.

Definition get_default (h : Header) (key : string) (d : HVal) : HVal :=
  default d (get h key).

(** [key in header] *)
Definition contains (h : Header) (key : string) : bool :=
  bool_decide (is_Some (get h key)).

(** [header[key] = value]: the first card of that keyword is
    rewritten, a new keyword goes to the end. *)
Fixpoint set (h : Header) (key : string) (v : HVal) : Header :=
  match h with
  | [] => [(key, v)]
  | (k, w) :: h' => if decide (k = key) then (k, v) :: h' else (k, w) :: set h' key v
  end.

(** [del header[key]] on a header that holds the keyword. *)
Fixpoint remove (h : Header) (key : string) : Header :=
  match h with
  | [] => []
  | (k, w) :: h' => if decide (k = key) then h' else (k, w) :: remove h' key
  end.

(** [del header[key]] on any header: every card of the keyword goes;
    [None] is the [KeyError] of a header that lacks the keyword. *)
Definition delitem (h : Header) (key : string) : option Header :=
  if contains h key then Some (filter (fun c : string * HVal => c.1 ≠ key) h) else None.

End Hdr.

(** ** FitsKeywordManipulator *)

Record FitsKeywordManipulator := {
  _headers : list Header;
  _single : bool;
  _on_ext : bool
}.

(** What a fan-out read returns: the one value of a single-header
    view, or the list of per-header values. *)
Inductive RetExt (A : Type) :=
| One (v : A)
| Many (vs : list A).
Arguments One {A} v.
Arguments Many {A} vs.

Module Manip.

Definition _ret_ext {A} (self : FitsKeywordManipulator) (values : list A) : result (RetExt A) :=
  if _single self && bool_decide (length (_headers self) = 1%nat) then
    match values with
    | v :: _ => ok (One v)
    | [] => raise (IndexError "list index out of range")
    end
  else ok (Many values).

(** The [for n, header in enumerate(self._headers)] loop of
    [__getitem__], threading [missing_at], [ret] and [raised]. *)
Fixpoint getitem_loop (key : string) (n : nat) (hs : list Header)
    (missing_at : list nat) (ret : list (option HVal)) (raised : bool)
    : list nat * list (option HVal) * bool :=
  match hs with
  | [] => (missing_at, ret, raised)
  | header :: hs' =>
      match Hdr.get header key with
      | Some v => getitem_loop key (S n) hs' missing_at (ret ++ [Some v]) raised
      | None => getitem_loop key (S n) hs' (missing_at ++ [n]) (ret ++ [None]) true
      end
  end.

Definition getitem (self : FitsKeywordManipulator) (key : string)
    : result (RetExt (option HVal)) :=
  if _on_ext self then
    let '(missing_at, ret, raised) := getitem_loop key 0 (_headers self) [] [] false in
    if raised then raise (KeyErrorAt missing_at ret)
    else _ret_ext self ret
  else
    match _headers self with
    | [] => raise (IndexError "list index out of range")
    | h :: _ =>
        match Hdr.get h key with
        | Some v => ok (One (Some v))
        | None => raise (KeyError key)
        end
    end.

(** [for n in err.missing_at: vals[n] = default] *)
Definition fill_default (vals : list (option HVal)) (missing_at : list nat)
    (dflt : option HVal) : list (option HVal) :=
  foldl (fun vs n => <[n := dflt]> vs) vals missing_at.

Definition get (self : FitsKeywordManipulator) (key : string) (dflt : option HVal)
    : result (RetExt (option HVal)) :=
  match getitem self key with
  | inl (KeyErrorAt missing_at values) =>
      if _on_ext self then _ret_ext self (fill_default values missing_at dflt)
      else ok (One dflt)
  | inl (KeyError _) =>
      if _on_ext self then raise (AttributeError "'KeyError' object has no attribute 'values'")
      else ok (One dflt)
  | r => r
  end.

(** [set] writes the keyword into every bound header. *)
Definition set (self : FitsKeywordManipulator) (key : string) (v : HVal)
    : FitsKeywordManipulator :=
  {| _headers := (fun h => Hdr.set h key v) <$> _headers self;
     _single := _single self; _on_ext := _on_ext self |}.

(** [__contains__] *)
Definition contains (self : FitsKeywordManipulator) (key : string) : result bool :=
  if _on_ext self then ok (existsb (fun h => Hdr.contains h key) (_headers self))
  else
    match _headers self with
    | [] => raise (IndexError "list index out of range")
    | h :: _ => ok (Hdr.contains h key)
    end.

(** The [for header in self._headers] loop of [remove], threading
    [deleted]: the headers as the loop leaves them and the count. *)
Fixpoint remove_loop (key : string) (hs : list Header) (deleted : nat) : list Header * nat :=
  match hs with
  | [] => ([], deleted)
  | header :: hs' =>
      match Hdr.delitem header key with
      | Some header' =>
          let '(hs'', deleted) := remove_loop key hs' (S deleted) in (header' :: hs'', deleted)
      | None =>
          let '(hs'', deleted) := remove_loop key hs' deleted in (header :: hs'', deleted)
      end
  end.

(** [remove], which [__delitem__] calls: the manipulator is returned
    as the call leaves it. *)
Definition remove (self : FitsKeywordManipulator) (key : string)
    : result unit * FitsKeywordManipulator :=
  if _on_ext self then
    let '(hs, deleted) := remove_loop key (_headers self) 0 in
    (if decide (deleted = 0%nat)
     then raise (KeyError ("'" +:+ key +:+ "' is not on any of the extensions"))
     else ok (),
     {| _headers := hs; _single := _single self; _on_ext := _on_ext self |})
  else
    match _headers self with
    | [] => (raise (IndexError "list index out of range"), self)
    | h :: hs =>
        match Hdr.delitem h key with
        | Some h' =>
            (ok (), {| _headers := h' :: hs; _single := _single self; _on_ext := _on_ext self |})
        | None => (raise (KeyError ("'" +:+ key +:+ "' is not on the PHU")), self)
        end
    end.

End Manip.

(** ** Index normalisation *)

(** The objects a provider can be subscripted with.  [IdxOther]
    stands for every object that is neither an integer, nor a tuple of
    integers, nor a slice. *)
Inductive Index :=
| IdxInt (i : Z)
| IdxTuple (t : list Z)
| IdxSlice (start stop step : option Z)
| IdxOther (repr : string).

Module Builtins.

(** [slice(start, stop, step).indices(length)], as CPython computes
    it: the bounds are clamped into [[0, length]] for a positive
    step and into [[-1, length - 1]] for a negative one. *)
Definition slice_indices (start stop step : option Z) (length : Z) : result (Z * Z * Z) :=
  if decide (length < 0) then raise (ValueError "length should not be negative") else
  let step := default 1 step in
  if decide (step = 0) then raise (ValueError "slice step cannot be zero") else
  let lower := if decide (step < 0) then -1 else 0 in
  let upper := if decide (step < 0) then length - 1 else length in
  let adjust (x : Z) :=
    if decide (x < 0) then Z.max (x + length) lower else Z.min x upper in
  let start := match start with
               | None => if decide (step < 0) then upper else lower
               | Some s => adjust s
               end in
  let stop := match stop with
              | None => if decide (step < 0) then lower else upper
              | Some s => adjust s
              end in
  ok (start, stop, step).

(** [len(range(start, stop, step))] for a non-zero step. *)
Definition range_length (start stop step : Z) : nat :=
  if decide (0 < step) then
    if decide (start < stop) then Z.to_nat (1 + (stop - 1 - start) `div` step) else 0%nat
  else
    if decide (stop < start) then Z.to_nat (1 + (start - 1 - stop) `div` (- step)) else 0%nat.

(** [list(range(start, stop, step))] *)
Definition range (start stop step : Z) : list Z :=
  (fun k : nat => start + Z.of_nat k * step) <$> seq 0 (range_length start stop step).

End Builtins.

Definition normalize_indices (slc : Index) (nitems : Z) : result (list Z * bool) :=
  r <-- match slc with
        | IdxSlice start stop step =>
            sss <-- Builtins.slice_indices start stop step nitems ;;
            let '(start, stop, step) := sss in
            ok (Builtins.range start stop step, true)
        | IdxInt i =>
            ok ((fun x => if decide (x >= 0) then x else nitems + x) <$> [i], false)
        | IdxTuple t =>
            ok ((fun x => if decide (x >= 0) then x else nitems + x) <$> t, true)
        | IdxOther repr => raise (ValueError ("Invalid index: " +:+ repr))
        end ;;
  let '(indices, multiple) := r in
  if existsb (fun i => bool_decide (i >= nitems)) indices
  then raise (IndexError "Index out of range")
  else ok (indices, multiple).

(** ** Pixel data, uncertainties and tables *)

(** A pixel array is the sequence of its values; the shape is not
    modelled.  Values are real numbers: the arithmetic of [np.sqrt]
    and [** 2] is exact here. *)
Definition Array : Type := list R.

Definition np_sqrt (a : Array) : Array := sqrt <$> a.
Definition np_square (a : Array) : Array := (fun x => x ^ 2)%R <$> a.

(** [StdDevUncertainty]: [array] holds standard deviations.  The
    back-reference [parent_nddata] is not modelled. *)
Record StdDevUncertainty := { array : Array }.

(** [StdDevAsVariance.as_variance] *)
Definition as_variance (self : StdDevUncertainty) : Array := np_square (array self).

Definition new_variance_uncertainty_instance (a : Array) : StdDevUncertainty :=
  {| array := np_sqrt a |}.

(** An astropy [Table]: named columns and the [meta] dictionary, of
    which only the ['header'] entry is used. *)
Record Table := {
  tbl_columns : list (string * list HVal);
  tbl_meta_header : option Header
}.

(** The external units. *)
Record ImageHDU := { hdu_data : Array; hdu_header : Header }.
Record BinTableHDU := { bt_columns : list (string * list HVal); bt_header : Header }.
Record PrimaryHDU := { phdu_data : option Array; phdu_header : Header }.

Inductive HDU :=
| Primary (u : PrimaryHDU)
| Image (u : ImageHDU)
| BinTable (u : BinTableHDU).

(** What an extension record keeps under [meta['other']]. *)
Inductive Payload :=
| PTable (t : Table)
| PArray (a : Array)
| PNDData (data : Array) (header : option Header)
| PObject (type_name : string).

(** [NDDataObject] with the entries of its [meta] dictionary; an
    entry that is [None] is a key the dictionary does not hold.
    [meta_other] is the [OrderedDict] of auxiliary payloads in
    insertion order. *)
Record NDData := {
  nd_data : Array;
  nd_uncertainty : option StdDevUncertainty;
  nd_mask : option Array;
  meta_header : option Header;
  meta_ver : option HVal;
  meta_name : option string;
  meta_other : option (list (string * Payload));
  meta_other_header : option (gmap string Header)
}.

(** Assignments to one attribute or one [meta] entry of a record. *)
Module Set_.

Definition uncertainty (u : option StdDevUncertainty) (nd : NDData) : NDData :=
  Build_NDData (nd_data nd) u (nd_mask nd) (meta_header nd) (meta_ver nd)
    (meta_name nd) (meta_other nd) (meta_other_header nd).

Definition mask (m : option Array) (nd : NDData) : NDData :=
  Build_NDData (nd_data nd) (nd_uncertainty nd) m (meta_header nd) (meta_ver nd)
    (meta_name nd) (meta_other nd) (meta_other_header nd).

Definition header (h : option Header) (nd : NDData) : NDData :=
  Build_NDData (nd_data nd) (nd_uncertainty nd) (nd_mask nd) h (meta_ver nd)
    (meta_name nd) (meta_other nd) (meta_other_header nd).

Definition ver (v : option HVal) (nd : NDData) : NDData :=
  Build_NDData (nd_data nd) (nd_uncertainty nd) (nd_mask nd) (meta_header nd) v
    (meta_name nd) (meta_other nd) (meta_other_header nd).

Definition other (o : option (list (string * Payload))) (nd : NDData) : NDData :=
  Build_NDData (nd_data nd) (nd_uncertainty nd) (nd_mask nd) (meta_header nd)
    (meta_ver nd) (meta_name nd) o (meta_other_header nd).

Definition other_header (oh : option (gmap string Header)) (nd : NDData) : NDData :=
  Build_NDData (nd_data nd) (nd_uncertainty nd) (nd_mask nd) (meta_header nd)
    (meta_ver nd) (meta_name nd) (meta_other nd) oh.

End Set_.

(** [d[key] = value] on an [OrderedDict]: a key that is present keeps
    its place, a new key goes to the end. *)
Fixpoint odict_set {V} (d : list (string * V)) (key : string) (v : V) : list (string * V) :=
  match d with
  | [] => [(key, v)]
  | (k, w) :: d' => if decide (k = key) then (k, v) :: d' else (k, w) :: odict_set d' key v
  end.

(** [del d[key]] on an [OrderedDict] that holds the key. *)
Definition odict_del {V} (d : list (string * V)) (key : string) : list (string * V) :=
  filter (fun kv : string * V => kv.1 ≠ key) d.

(** [str.isupper]: the string has a cased character and none of its
    cased characters is lower case.  The cased characters are the
    ASCII letters; every other character counts as uncased. *)
Definition is_ascii_upper (c : Ascii.ascii) : bool :=
  let n := Ascii.N_of_ascii c in ((65 <=? n) && (n <=? 90))%N.

Definition is_ascii_lower (c : Ascii.ascii) : bool :=
  let n := Ascii.N_of_ascii c in ((97 <=? n) && (n <=? 122))%N.

Fixpoint has_char (p : Ascii.ascii -> bool) (s : string) : bool :=
  match s with
  | EmptyString => false
  | String c s' => p c || has_char p s'
  end.

Definition isupper (s : string) : bool :=
  has_char is_ascii_upper s && negb (has_char is_ascii_lower s).

(** ** The provider *)

(** The attributes of [FitsProvider] that the methods below use.
    [_nddata] is [None] until the object is populated.  [_header] is
    the list set by [_set_headers], [_clone] or the factory; a free
    table is also reachable as an attribute of the object, which
    [_exposed] records. *)
Record FitsProvider := {
  _header : list Header;
  _nddata : option (list NDData);
  _tables : gmap string Table;
  _exposed : gset string
}.

Definition default_extension : string := "SCI".

(** Methods run on a provider and leave a provider behind, also when
    they raise. *)
Definition M (A : Type) : Type := FitsProvider -> result A * FitsProvider.

Definition mret {A} (a : A) : M A := fun self => (ok a, self).
Definition mraise {A} (e : exn) : M A := fun self => (raise e, self).
Definition mlift {A} (r : result A) : M A := fun self => (r, self).
Definition mbind {A B} (m : M A) (k : A -> M B) : M B :=
  fun self =>
    match m self with
    | (inl e, self') => (inl e, self')
    | (inr a, self') => k a self'
    end.

Notation "x <~ m ;; k" := (mbind m (fun x => k))
  (at level 100, m at next level, right associativity).

(** A loop over a sequence whose body runs on the provider; what it
    collects is the list a generator yields when it is consumed to the
    end. *)
Fixpoint mmap {A B} (f : A -> M B) (l : list A) : M (list B) :=
  match l with
  | [] => mret []
  | x :: l' => y <~ f x ;; ys <~ mmap f l' ;; mret (y :: ys)
  end.

Definition with_header (hs : list Header) (self : FitsProvider) : FitsProvider :=
  {| _header := hs; _nddata := _nddata self; _tables := _tables self; _exposed := _exposed self |}.

Definition with_nddata (nds : list NDData) (self : FitsProvider) : FitsProvider :=
  {| _header := _header self; _nddata := Some nds; _tables := _tables self;
     _exposed := _exposed self |}.

(** The records of a populated provider. *)
Definition nddata (self : FitsProvider) : list NDData := default [] (_nddata self).

(** [_lazy_populate_object] for an object that has neither a path nor
    a pending HDU list: a provider that was never populated gets the
    empty record list. *)
Definition _lazy_populate_object : M unit :=
  fun self =>
    match _nddata self with
    | None => (ok (), with_nddata [] self)
    | Some _ => (ok (), self)
    end.

(** [__len__] *)
Definition len (self : FitsProvider) : Z := Z.of_nat (length (_header self)) - 1.

(** The mutation of the record bound to [add_to], which is the object
    [self._nddata[k]]. *)
Definition on_record {A} (k : nat) (f : NDData -> result A * NDData) : M A :=
  fun self =>
    match nddata self !! k with
    | None => (raise (IndexError "list index out of range"), self)
    | Some nd => let '(r, nd') := f nd in (r, with_nddata (<[k := nd']> (nddata self)) self)
    end.

(** *** Versions *)

Definition ver_of (nd : NDData) : result Z :=
  match meta_ver nd with
  | None => raise (KeyError "ver")
  | Some (HInt z) => ok z
  | Some (HStr _) => raise (TypeError "unorderable types: str() and int()")
  end.

(** [_nd.meta['ver'] for _nd in self._nddata] *)
Definition vers_of (nds : list NDData) : result (list Z) := collect ver_of nds.

(** [max] of a non-empty sequence. *)
Definition py_max (v : Z) (vs : list Z) : Z := foldl Z.max v vs.

Definition _get_max_ver (self : FitsProvider) : result Z :=
  vs <-- vers_of (nddata self) ;;
  match vs with
  | [] => ok 1
  | v :: vs' => ok (py_max v vs' + 1)
  end.

(** The loop of [_reset_ver] over [nd.meta['other'].items()].  A
    payload without an entry in [other_header] gets the version in its
    own header; a [KeyError] there leaves the loop, an
    [AttributeError] skips the payload. *)
Fixpoint reset_other (ver : Z) (others : list (string * Payload))
    (oheaders : gmap string Header) : list (string * Payload) * gmap string Header :=
  match others with
  | [] => ([], oheaders)
  | (extname, ext) :: rest =>
      match oheaders !! extname with
      | Some h =>
          let '(rest', oh') :=
            reset_other ver rest (<[extname := Hdr.set h "EXTVER" (HInt ver)]> oheaders) in
          ((extname, ext) :: rest', oh')
      | None =>
          match ext with
          | PTable t =>
              match tbl_meta_header t with
              | Some th =>
                  let t' := {| tbl_columns := tbl_columns t;
                               tbl_meta_header := Some (Hdr.set th "EXTVER" (HInt ver)) |} in
                  let '(rest', oh') := reset_other ver rest oheaders in
                  ((extname, PTable t') :: rest', oh')
              | None => (others, oheaders)
              end
          | PNDData d (Some h) =>
              let '(rest', oh') := reset_other ver rest oheaders in
              ((extname, PNDData d (Some (Hdr.set h "EXTVER" (HInt ver)))) :: rest', oh')
          | PNDData d None => (others, oheaders)
          | PArray _ | PObject _ =>
              let '(rest', oh') := reset_other ver rest oheaders in
              ((extname, ext) :: rest', oh')
          end
      end
  end.

(** [_reset_ver] returns the version and the record as it leaves it. *)
Definition _reset_ver (self : FitsProvider) (nd : NDData) : result (Z * NDData) :=
  ver <-- _get_max_ver self ;;
  match meta_header nd with
  | None => raise (KeyError "header")
  | Some h =>
      let nd := Set_.ver (Some (HInt ver))
                  (Set_.header (Some (Hdr.set h "EXTVER" (HInt ver))) nd) in
      let nd := match meta_other_header nd, meta_other nd with
                | Some oheaders, Some others =>
                    let '(others', oheaders') := reset_other ver others oheaders in
                    Set_.other (Some others') (Set_.other_header (Some oheaders') nd)
                | _, _ => nd
                end in
      ok (ver, nd)
  end.

(** *** Pixel planes *)

(** What [_process_pixel_plane] is given: a unit, a record, or
    anything else that is taken for an array. *)
Inductive PixIm :=
| PixHDU (u : ImageHDU)
| PixND (nd : NDData)
| PixRaw (a : Array).

Definition bare_nddata (data : Array) (header : option Header) : NDData :=
  {| nd_data := data; nd_uncertainty := None; nd_mask := None; meta_header := header;
     meta_ver := None; meta_name := None; meta_other := None; meta_other_header := None |}.

(** The truth value of an optional string. *)
Definition truthy (name : option string) : bool :=
  match name with
  | Some s => negb (bool_decide (s = ""))
  | None => false
  end.

Definition _process_pixel_plane (self : FitsProvider) (pixim : PixIm) (name : option string)
    (top_level reset_ver : bool) (custom_header : option Header) : result NDData :=
  nd <-- match pixim with
         | PixHDU u => ok (bare_nddata (hdu_data u) (Some (hdu_header u)))
         | PixRaw a => ok (bare_nddata a custom_header)
         | PixND nd =>
             match meta_header nd with
             | Some _ => ok nd
             | None => raise (KeyError "header")
             end
         end ;;
  (* without a header the code reads an empty dictionary that it drops *)
  let header := default [] (meta_header nd) in
  let currname := Hdr.get header "EXTNAME" in
  let ver := default (HInt (-1)) (Hdr.get header "EXTVER") in
  let nd := if truthy name && bool_decide (currname = None)
            then Set_.header
                   ((fun h => Hdr.set h "EXTNAME" (HStr (default default_extension name)))
                      <$> meta_header nd) nd
            else nd in
  if top_level then
    let nd := match meta_other nd with
              | None => Set_.other_header (Some ∅) (Set_.other (Some []) nd)
              | Some _ => nd
              end in
    if reset_ver || bool_decide (ver = HInt (-1))
    then r <-- _reset_ver self nd ;; ok r.2
    else ok (Set_.ver (Some ver) nd)
  else ok nd.

(** What the [_append] methods return. *)
Inductive Appended :=
| RetND (nd : NDData)
| RetArray (a : Array)
| RetStdDev (u : StdDevUncertainty)
| RetTable (t : Table).

(** [_add_to_other]: the record is returned as the call leaves it. *)
Definition _add_to_other (add_to : NDData) (name : string) (data : Payload)
    (header : option Header) : result unit * NDData :=
  match meta_other add_to with
  | None => (raise (KeyError "other"), add_to)
  | Some others =>
      let nd := Set_.other (Some (odict_set others name data)) add_to in
      match header with
      | Some (c :: h) =>
          let header := Hdr.set (c :: h) "EXTVER" (default (HInt (-1)) (meta_ver nd)) in
          match meta_other_header nd with
          | None => (raise (KeyError "other_header"), nd)
          | Some oheaders => (ok (), Set_.other_header (Some (<[name := header]> oheaders)) nd)
          end
      | _ => (ok (), nd)
      end
  end.

(** [_append_nddata].  The header found in, or appended to,
    [self.header] is the object the record holds, so the cell shows
    what [_reset_ver] writes into it. *)
Definition _append_nddata (new_nddata : NDData) (name : option string)
    (add_to : option nat) (reset_ver : bool) : M Appended :=
  match add_to with
  | Some _ =>
      mraise (TypeError "You can only append NDData derived instances at the top level")
  | None =>
      match meta_header new_nddata with
      | None => mraise (KeyError "header")
      | Some hd =>
          let hname := default (HStr default_extension) (Hdr.get hd "EXTNAME") in
          if decide (hname = HStr default_extension) then
            fun self =>
              let found := PyList.index (_header self) hd in
              match found with
              | Some pos =>
                  if decide (Z.of_nat pos - 1 = Z.of_nat (length (nddata self))) then
                    match (if reset_ver then r <-- _reset_ver self new_nddata ;; ok r.2
                           else ok new_nddata) with
                    | inl e => (inl e, self)
                    | inr nd =>
                        let self := with_header
                                      (<[pos := default hd (meta_header nd)]> (_header self))
                                      self in
                        (ok (RetND nd), with_nddata (nddata self ++ [nd]) self)
                    end
                  else
                    (raise (AssertionError
                       "Appending new data with existing header, which does not match positions"),
                     self)
              | None =>
                  let self := with_header (_header self ++ [hd]) self in
                  match (if reset_ver then r <-- _reset_ver self new_nddata ;; ok r.2
                         else ok new_nddata) with
                  | inl e => (inl e, self)
                  | inr nd =>
                      let self := with_header
                                    (<[pred (length (_header self))
                                       := default hd (meta_header nd)]> (_header self))
                                    self in
                      (ok (RetND nd), with_nddata (nddata self ++ [nd]) self)
                  end
              end
          else
            mraise (ValueError
              ("Arbitrary image extensions can only be added in association to a '"
               +:+ default_extension +:+ "'"))
      end
  end.

(** [_append_array], open in the method it calls for a new
    top-level plane; [_append_array] below closes it. *)
Definition _append_array_open (imagehdu : ImageHDU -> option string -> M Appended)
    (data : Array) (name : option string) (header : option Header)
    (add_to : option nat) : M Appended :=
  match add_to with
  | None =>
      let name := default default_extension name in
      if bool_decide (name = "DQ" ∨ name = "VAR") then
        mraise (ValueError
          ("'" +:+ name +:+ "' need to be associated to a '" +:+ default_extension +:+ "' one"))
      else
        let hname := name in
        let hdu := {| hdu_data := data;
                      hdu_header := Hdr.set (default [] header) "EXTNAME" (HStr hname) |} in
        imagehdu hdu (Some hname)
  | Some k =>
      match name with
      | None => mraise (ValueError "Can't append pixel planes to other objects without a name")
      | Some name =>
          if bool_decide (name = default_extension) then
            mraise (ValueError
              ("Can't attach '" +:+ default_extension +:+ "' arrays to other objects"))
          else if bool_decide (name = "DQ") then
            on_record k (fun nd => (ok (RetArray data), Set_.mask (Some data) nd))
          else if bool_decide (name = "VAR") then
            let std_un := new_variance_uncertainty_instance data in
            on_record k (fun nd => (ok (RetStdDev std_un), Set_.uncertainty (Some std_un) nd))
          else
            on_record k (fun nd =>
              let '(r, nd') := _add_to_other nd name (PArray data) header in
              (_ <-- r ;; ok (RetArray data), nd'))
      end
  end.

Definition _append_imagehdu (unit : ImageHDU) (name : option string)
    (header : option Header) (add_to : option nat) (reset_ver : bool) : M Appended :=
  if bool_decide (name = Some "DQ" ∨ name = Some "VAR") || bool_decide (is_Some add_to) then
    (* the call below does not come back here: see [_append_imagehdu_array] *)
    _append_array_open
      (fun _ _ => mraise (AssertionError "not reached"))
      (hdu_data unit) name None add_to
  else
    fun self =>
      match _process_pixel_plane self (PixHDU unit) name true reset_ver header with
      | inl e => (inl e, self)
      | inr nd => _append_nddata nd name None true self
      end.

Definition _append_array (data : Array) (name : option string) (header : option Header)
    (add_to : option nat) : M Appended :=
  _append_array_open (fun hdu hname => _append_imagehdu hdu hname None None true)
    data name header add_to.

Definition _append_raw_nddata (raw_nddata : NDData) (name : option string)
    (header : option Header) (add_to : option nat) (reset_ver : bool) : M Appended :=
  let top_level := bool_decide (add_to = None) in
  fun self =>
    match _process_pixel_plane self (PixND raw_nddata) None top_level reset_ver header with
    | inl e => (inl e, self)
    | inr processed_nddata => _append_nddata processed_nddata name add_to true self
    end.

(** *** Tables *)

(** The header astropy derives for the columns of a table; of its
    cards only the table marker, the column count and the column
    names are kept. *)
Definition header_for_table (columns : list (string * list HVal)) : Header :=
  app [("XTENSION", HStr "BINTABLE"); ("TFIELDS", HInt (Z.of_nat (length columns)))]
      (imap (fun n col => ("TTYPE" +:+ pretty (S n), HStr col.1)) columns).

(** [_process_table] for the two types the dispatcher sends to it. *)
Definition _process_table (table : BinTableHDU + Table) (name : option string)
    (header : option Header) : Table :=
  let obj :=
    match table with
    | inl u =>
        {| tbl_columns := bt_columns u;
           tbl_meta_header := Some (match header with
                                    | Some (c :: h) => c :: h
                                    | _ => bt_header u
                                    end) |}
    | inr t =>
        match header, tbl_meta_header t with
        | Some h, _ => {| tbl_columns := tbl_columns t; tbl_meta_header := Some h |}
        | None, None =>
            {| tbl_columns := tbl_columns t;
               tbl_meta_header := Some (header_for_table (tbl_columns t)) |}
        | None, Some _ => t
        end
    end in
  match name with
  | Some n =>
      {| tbl_columns := tbl_columns obj;
         tbl_meta_header := (fun h => Hdr.set h "EXTNAME" (HStr n)) <$> tbl_meta_header obj |}
  | None => obj
  end.

Definition with_table (hname : string) (tb : Table) (self : FitsProvider) : FitsProvider :=
  {| _header := _header self; _nddata := _nddata self;
     _tables := <[hname := tb]> (_tables self);
     _exposed := {[hname]} ∪ _exposed self |}.

(** [_append_table].  A name read from the header is a string card;
    the header handed to [_add_to_other] is the table's own, so the
    table stored last carries the version written there. *)
Definition _append_table (new_table : BinTableHDU + Table) (name : option string)
    (header : option Header) (add_to : option nat) (reset_ver : bool) : M Appended :=
  let tb := _process_table new_table name header in
  let hname := match name with
               | Some n => ok (Some n)
               | None =>
                   match Hdr.get (default [] (tbl_meta_header tb)) "EXTNAME" with
                   | None => ok None
                   | Some (HStr s) => ok (Some s)
                   | Some (HInt _) => raise (TypeError "EXTNAME is not a string")
                   end
               end in
  match hname with
  | inl e => mraise e
  | inr None => mraise (ValueError "Can't attach a table without a name!")
  | inr (Some hname) =>
      match add_to with
      | None => fun self => (ok (RetTable tb), with_table hname tb self)
      | Some k =>
          on_record k (fun nd =>
            let '(r, nd') := _add_to_other nd hname (PTable tb) (tbl_meta_header tb) in
            match r with
            | inl e => (inl e, nd')
            | inr _ =>
                let tb' :=
                  match tbl_meta_header tb with
                  | Some (c :: h) =>
                      {| tbl_columns := tbl_columns tb;
                         tbl_meta_header :=
                           Some (Hdr.set (c :: h) "EXTVER" (default (HInt (-1)) (meta_ver nd'))) |}
                  | _ => tb
                  end in
                match meta_other nd' with
                | None => (raise (KeyError "other"), nd')
                | Some others =>
                    (ok (RetTable tb'), Set_.other (Some (odict_set others hname (PTable tb'))) nd')
                end
            end)
      end
  end.

(** *** Whole objects and the dispatcher *)

(** What can be appended.  [ExtAstroData] carries the record bound
    to a single slice, and nothing for an object that is not a single
    slice; [ExtArray] stands for every value of no other listed
    type. *)
Inductive Ext :=
| ExtNDData (nd : NDData)
| ExtTable (t : Table)
| ExtBinTableHDU (u : BinTableHDU)
| ExtImageHDU (u : ImageHDU)
| ExtAstroData (single_nddata : option NDData)
| ExtArray (a : Array).

Definition _append_astrodata (astrod : option NDData) (name : option string)
    (header : option Header) (add_to : option nat) (reset_ver : bool) : M Appended :=
  match astrod with
  | None => mraise (ValueError "Cannot append AstroData instances that are not single slices")
  | Some nd =>
      if bool_decide (is_Some add_to) then
        mraise (ValueError "Cannot append an AstroData slice to another slice")
      else
        let new_nddata := match header with
                          | Some h => Set_.header (Some h) nd
                          | None => nd
                          end in
        _append_nddata new_nddata None None true
  end.

Definition _append (ext : Ext) (name : option string) (header : option Header)
    (add_to : option nat) (reset_ver : bool) : M Appended :=
  _ <~ _lazy_populate_object ;;
  match ext with
  | ExtNDData nd => _append_raw_nddata nd name header add_to reset_ver
  | ExtTable t => _append_table (inr t) name header add_to reset_ver
  | ExtBinTableHDU u => _append_table (inl u) name header add_to reset_ver
  | ExtImageHDU u => _append_imagehdu u name header add_to reset_ver
  | ExtAstroData a => _append_astrodata a name header add_to reset_ver
  | ExtArray a => _append_array a name header add_to
  end.

(** The public [append]: a primary unit is turned away before
    anything else happens. *)
Definition append (ext : PrimaryHDU + Ext) (name : option string) (header : option Header)
    (reset_ver : bool) : M Appended :=
  match ext with
  | inl _ => mraise (ValueError "Only one Primary HDU allowed")
  | inr ext =>
      _ <~ _lazy_populate_object ;;
      _append ext name header None reset_ver
  end.

(** *** Slices *)

Module Proxy.

(** [FitsProviderProxy]: the provider it refers to is the one its
    methods are run on. *)
Record t := { _mapping : list Z; _single : bool }.

Definition len (self : t) : Z := Z.of_nat (length (_mapping self)).

(** [_mapped_nddata(idx)] with an index, and without one. *)
Definition _mapped_nddata_at (self : t) (idx : Z) : M NDData :=
  _ <~ _lazy_populate_object ;;
  fun provider =>
    (n <-- index_error (PyList.getitem (_mapping self) idx) ;;
     index_error (PyList.getitem (nddata provider) n), provider).

Definition _mapped_nddata (self : t) : M (list NDData) :=
  _ <~ _lazy_populate_object ;;
  fun provider =>
    (collect (fun idx => index_error (PyList.getitem (nddata provider) idx)) (_mapping self),
     provider).

(** The [header] property. *)
Definition header (self : t) (provider : FitsProvider) : result (list Header) :=
  collect (fun idx => index_error (PyList.getitem (_header provider) idx))
    (0 :: ((fun n => n + 1) <$> _mapping self)).

(** The [uncertainty] and [variance] properties of a single slice. *)
Definition uncertainty (self : t) : M (option StdDevUncertainty) :=
  nd <~ _mapped_nddata_at self 0 ;; mret (nd_uncertainty nd).

Definition variance_for (un : option StdDevUncertainty) : option Array :=
  match un with
  | Some un => Some (np_square (array un))
  | None => None
  end.

Definition variance (self : t) : M (option Array) :=
  un <~ uncertainty self ;; mret (variance_for un).

(** The position in [_nddata] of the record [_mapped_nddata(0)]. *)
Definition target (self : t) : M nat :=
  _ <~ _lazy_populate_object ;;
  fun provider =>
    (n <-- index_error (PyList.getitem (_mapping self) 0) ;;
     index_error (PyList.norm_index (length (nddata provider)) n), provider).

Definition append (self : t) (ext : Ext) (name : option string) : M Appended :=
  if negb (_single self) then
    mraise (TypeError "Can't append objects to non-single slices")
  else
    match name with
    | None => mraise (TypeError "Can't append objects to a slice without an extension name")
    | Some _ =>
        k <~ target self ;;
        _append ext name None (Some k) true
    end.

(** The [data] and [mask] properties: the value of the record of a
    single slice, the list of the values of the records otherwise. *)
Definition data (self : t) : M (RetExt Array) :=
  if _single self then nd <~ _mapped_nddata_at self 0 ;; mret (One (nd_data nd))
  else nds <~ _mapped_nddata self ;; mret (Many (nd_data <$> nds)).

Definition mask (self : t) : M (RetExt (option Array)) :=
  if _single self then nd <~ _mapped_nddata_at self 0 ;; mret (One (nd_mask nd))
  else nds <~ _mapped_nddata self ;; mret (Many (nd_mask <$> nds)).

(** The setters of [uncertainty], [mask] and [variance]: they assign
    to the record [_mapped_nddata(0)], which is a record of the
    provider. *)
Definition set_uncertainty (self : t) (value : option StdDevUncertainty) : M unit :=
  if negb (_single self) then
    mraise (ValueError "Trying to assign to an AstroData object that is not a single slice")
  else
    k <~ target self ;;
    on_record k (fun nd => (ok (), Set_.uncertainty value nd)).

Definition set_mask (self : t) (value : option Array) : M unit :=
  if negb (_single self) then
    mraise (ValueError "Trying to assign to an AstroData object that is not a single slice")
  else
    k <~ target self ;;
    on_record k (fun nd => (ok (), Set_.mask value nd)).

Definition set_variance (self : t) (value : option Array) : M unit :=
  if negb (_single self) then
    mraise (ValueError "Trying to assign to an AstroData object that is not a single slice")
  else
    k <~ target self ;;
    on_record k (fun nd =>
      match value with
      | None => (ok (), Set_.uncertainty None nd)
      | Some value =>
          (ok (), Set_.uncertainty (Some (new_variance_uncertainty_instance value)) nd)
      end).

(** [__delattr__]: the entry goes from [meta['other']] of the record
    and, if it has one, its header from [meta['other_header']]. *)
Definition delattr (self : t) (attribute : string) : M unit :=
  if negb (isupper attribute) then
    mraise (ValueError "Can't delete non-capitalized attributes from slices")
  else if negb (_single self) then
    mraise (TypeError "Can't delete attributes on non-single slices")
  else
    k <~ target self ;;
    on_record k (fun nd =>
      match meta_other nd with
      | None => (raise (KeyError "other"), nd)
      | Some other =>
          match meta_other_header nd with
          | None => (raise (KeyError "other_header"), nd)
          | Some otherh =>
              if bool_decide (attribute ∈ other.*1) then
                (ok (),
                 Set_.other_header (Some (delete attribute otherh))
                   (Set_.other (Some (odict_del other attribute)) nd))
              else
                (raise (AttributeError
                   ("'" +:+ attribute +:+ "' does not exist in this extension")), nd)
          end
      end).

(** The [exposed] property. *)
Definition exposed (self : t) : M (gset string) :=
  nd <~ _mapped_nddata_at self 0 ;;
  fun provider =>
    (match meta_other nd with
     | None => raise (KeyError "other")
     | Some other => ok (_exposed provider ∪ list_to_set other.*1)
     end, provider).

End Proxy.

Definition _slice (indices : list Z) (multi : bool) : M Proxy.t :=
  _ <~ _lazy_populate_object ;;
  mret {| Proxy._mapping := indices; Proxy._single := negb multi |}.

(** [FitsProvider.__getitem__] *)
Definition getitem (slc : Index) : M Proxy.t :=
  _ <~ _lazy_populate_object ;;
  fun self =>
    let nitems := Z.of_nat (length (_header self)) - 1 in
    match normalize_indices slc nitems with
    | inl e => (inl e, self)
    | inr (indices, multiple) => _slice indices multiple self
    end.

(** [FitsProviderProxy.__getitem__] *)
Definition proxy_getitem (self : Proxy.t) (slc : Index) : M Proxy.t :=
  if Proxy._single self then mraise (TypeError "Can't slice a single slice!")
  else
    match normalize_indices slc (Proxy.len self) with
    | inl e => mraise e
    | inr (indices, multiple) =>
        match collect
                (fun idx => index_error (PyList.getitem (Proxy._mapping self) idx))
                indices with
        | inl e => mraise e
        | inr mapped_indices => _slice mapped_indices multiple
        end
    end.

(** [FitsProvider.__delitem__] *)
Definition delitem (idx : Z) : M unit :=
  _ <~ _lazy_populate_object ;;
  fun self =>
    let nitems := Z.of_nat (length (_header self)) - 1 in
    if decide (idx >= nitems ∨ idx < - nitems) then
      (raise (IndexError "Index out of range"), self)
    else
      match PyList.delitem (_header self) (idx + 1) with
      | None => (raise (IndexError "list assignment index out of range"), self)
      | Some hs =>
          let self := with_header hs self in
          match PyList.delitem (nddata self) idx with
          | None => (raise (IndexError "list assignment index out of range"), self)
          | Some nds => (ok (), with_nddata nds self)
          end
      end.

(** [FitsProvider.__iter__] and [FitsProviderProxy.__iter__], consumed
    to the end. *)
Definition iter : M (list Proxy.t) :=
  fun self => mmap (fun n => _slice [n] false) (Builtins.range 0 (len self) 1) self.

Definition proxy_iter (self : Proxy.t) : M (list Proxy.t) :=
  if Proxy._single self then mret [self]
  else mmap (fun n => _slice [n] false) (Proxy._mapping self).

(** [_extver_impl]: [dict] takes the pairs in order, so that of two
    records with the same version the later one stays. *)
Definition _extver_impl (nds : list NDData) : result (gmap HVal nat) :=
  vers <-- collect (fun nd => match meta_ver nd with
                              | Some v => ok v
                              | None => raise (KeyError "ver")
                              end) nds ;;
  ok (foldl (fun (d : gmap HVal nat) (vn : HVal * nat) => <[vn.1 := vn.2]> d) ∅
        (zip vers (seq 0 (length vers)))).

(** [FitsProvider.extver_map] *)
Definition extver_map : M (gmap HVal nat) :=
  _ <~ _lazy_populate_object ;;
  fun self => (_extver_impl (nddata self), self).

(** [FitsProvider.__delattr__] *)
Definition delattr (attribute : string) : M unit :=
  _ <~ _lazy_populate_object ;;
  if negb (isupper attribute) then
    mraise (ValueError "Can't delete non-capitalized attributes")
  else
    fun self =>
      match _tables self !! attribute with
      | Some _ =>
          (ok (),
           {| _header := _header self; _nddata := _nddata self;
              _tables := delete attribute (_tables self); _exposed := _exposed self |})
      | None =>
          (raise (AttributeError
             ("'" +:+ attribute +:+ "' is not a global table for this instance")), self)
      end.

(** The [tables] and [exposed] properties and the [table] method. *)
Definition tables (self : FitsProvider) : gset string := dom (_tables self).

Definition exposed : M (gset string) :=
  _ <~ _lazy_populate_object ;;
  fun self => (ok (_exposed self), self).

Definition table : M (gmap string Table) :=
  _ <~ _lazy_populate_object ;;
  fun self => (ok (_tables self), self).

(** The [data], [uncertainty], [mask] and [variance] properties of a
    provider: one value for each record. *)
Definition data : M (list Array) :=
  _ <~ _lazy_populate_object ;;
  fun self => (ok (nd_data <$> nddata self), self).

Definition uncertainty : M (list (option StdDevUncertainty)) :=
  _ <~ _lazy_populate_object ;;
  fun self => (ok (nd_uncertainty <$> nddata self), self).

Definition mask : M (list (option Array)) :=
  _ <~ _lazy_populate_object ;;
  fun self => (ok (nd_mask <$> nddata self), self).

Definition variance : M (list (option Array)) :=
  _ <~ _lazy_populate_object ;;
  fun self =>
    (ok ((fun nd => match nd_uncertainty nd with
                    | Some un => Some (np_square (array un))
                    | None => None
                    end) <$> nddata self), self).

(** The manipulators of the primary header, of the extension headers
    of a provider and of those of a slice. *)
Definition phu_manipulator (self : FitsProvider) : FitsKeywordManipulator :=
  Build_FitsKeywordManipulator (take 1 (_header self)) false false.

Definition ext_manipulator (self : FitsProvider) : result FitsKeywordManipulator :=
  if decide (1 < length (_header self))%nat
  then ok (Build_FitsKeywordManipulator (drop 1 (_header self)) false true)
  else raise (AssertionError "There are no SCI extensions").

Definition proxy_ext_manipulator (self : Proxy.t) (provider : FitsProvider)
    : result FitsKeywordManipulator :=
  hs <-- Proxy.header self provider ;;
  ok (Build_FitsKeywordManipulator (drop 1 hs) (Proxy._single self) true).

(** ** Sorting *)

(** [sorted] is stable: equal elements keep the order they came in. *)
Fixpoint insert_by {A} (le : A -> A -> bool) (x : A) (l : list A) : list A :=
  match l with
  | [] => [x]
  | y :: l' => if le x y then x :: y :: l' else y :: insert_by le x l'
  end.

Definition sorted_by {A} (le : A -> A -> bool) (l : list A) : list A :=
  foldr (insert_by le) [] l.

(** ** Serialisation *)

(** [ImageHDU(data=data, header=header.copy(), name=name)]: astropy
    writes a name it is given into the EXTNAME card. *)
Definition new_imagehdu (data : Array) (header : Header) (name : option string) : ImageHDU :=
  {| hdu_data := data;
     hdu_header := match name with
                   | Some n => Hdr.set header "EXTNAME" (HStr n)
                   | None => header
                   end |}.

(** [table_to_bintablehdu]; the attributes that the column
    definitions take from the header cards are not modelled. *)
Definition table_to_bintablehdu (table : Table) : result BinTableHDU :=
  match tbl_meta_header table with
  | None => raise (KeyError "header")
  | Some header => ok {| bt_columns := tbl_columns table; bt_header := header |}
  end.

(** The unit written for one entry of [meta['other']]. *)
Definition other_to_hdu (ext : NDData) (header : Header) (name : string) (other : Payload)
    : result HDU :=
  match other with
  | PTable t => u <-- table_to_bintablehdu t ;; ok (BinTable u)
  | PArray a =>
      match meta_other_header ext with
      | None => raise (KeyError "other_header")
      | Some oheaders => ok (Image (new_imagehdu a (default header (oheaders !! name)) (Some name)))
      end
  | PNDData d _ => ok (Image (new_imagehdu d header None))
  | PObject type_name =>
      raise (ValueError ("I don't know how to write back an object of type " +:+ type_name))
  end.

(** The units written for one record: the body of the loop over
    [self._nddata]. *)
Definition ext_to_hdus (ext : NDData) : result (list HDU) :=
  match meta_header ext, meta_ver ext with
  | None, _ => raise (KeyError "header")
  | Some _, None => raise (KeyError "ver")
  | Some header, Some _ =>
      others <-- collect (fun no => other_to_hdu ext header no.1 no.2)
                   (default [] (meta_other ext)) ;;
      ok ([Image (new_imagehdu (nd_data ext) header None)]
          ++ match nd_uncertainty ext with
             | Some un => [Image (new_imagehdu (np_square (array un)) header (Some "VAR"))]
             | None => []
             end
          ++ match nd_mask ext with
             | Some m => [Image (new_imagehdu m header (Some "DQ"))]
             | None => []
             end
          ++ others)
  end.

(** [sorted(self._tables.items())] *)
Definition sorted_tables (tables : gmap string Table) : list (string * Table) :=
  sorted_by (fun a b => String.leb a.1 b.1) (map_to_list tables).

Definition to_hdulist : M (list HDU) :=
  _ <~ _lazy_populate_object ;;
  fun self =>
    (match _header self with
     | [] => raise (IndexError "list index out of range")
     | phu :: _ =>
         exts <-- collect ext_to_hdus (nddata self) ;;
         tables <-- collect (fun nt => u <-- table_to_bintablehdu nt.2 ;; ok (BinTable u))
                      (sorted_tables (_tables self)) ;;
         ok ([Primary {| phdu_data := None; phdu_header := phu |}] ++ concat exts ++ tables)
     end, self).

(** ** The loader *)

Definition hdu_header_of (u : HDU) : Header :=
  match u with
  | Primary u => phdu_header u
  | Image u => hdu_header u
  | BinTable u => bt_header u
  end.

Definition is_primary (u : HDU) : bool :=
  match u with
  | Primary _ => true
  | _ => false
  end.

(** [ev not in (-1, None)] *)
Definition has_version (ev : option HVal) : bool :=
  match ev with
  | None => false
  | Some v => negb (bool_decide (v = HInt (-1)))
  end.

(** The key of a unit; a name or a version of another type than
    string and integer fails where the code adds or compares it. *)
Definition fits_ext_comp_key (ext : HDU) : result (Z * string) :=
  match ext with
  | Primary _ => ok (-1, "")
  | _ =>
      let header := hdu_header_of ext in
      let ver := Hdr.get header "EXTVER" in
      name <-- match Hdr.get header "EXTNAME" with
               | None => ok "zzzz"
               | Some (HStr name) =>
                   if bool_decide (name ≠ default_extension) then ok ("z" +:+ name) else ok name
               | Some (HInt _) => raise (TypeError "must be str, not int")
               end ;;
      match ver with
      | None => ok (2 ^ 32 - 1, name)
      | Some (HInt v) => if bool_decide (v = -1) then ok (2 ^ 32 - 1, name) else ok (v, name)
      | Some (HStr _) => raise (TypeError "unorderable types: str() and int()")
      end
  end.

(** The order of Python tuples [(int, str)]. *)
Definition key_leb (a b : Z * string) : bool :=
  bool_decide (a.1 < b.1) || (bool_decide (a.1 = b.1) && String.leb a.2 b.2).

(** [sorted(l, key=fits_ext_comp_key)] *)
Definition sorted_units (l : list HDU) : result (list HDU) :=
  keys <-- collect fits_ext_comp_key l ;;
  ok ((sorted_by (fun a b => key_leb a.1 b.1) (zip keys l)).*2).

Module FitsLoader.

(** A unit that the first loop of [_prepare_hdulist] keeps. *)
Definition recognized (unit : HDU) : bool :=
  let ev := Hdr.get (hdu_header_of unit) "EXTVER" in
  let eh := Hdr.get (hdu_header_of unit) "EXTNAME" in
  (has_version ev && bool_decide (is_Some eh)) || is_primary unit.

(** The first loop: the units it keeps and the highest version. *)
Fixpoint first_loop (hdulist : list HDU) (highest_ver : Z) : result (list HDU * Z) :=
  match hdulist with
  | [] => ok ([], highest_ver)
  | unit :: rest =>
      let ev := Hdr.get (hdu_header_of unit) "EXTVER" in
      let eh := Hdr.get (hdu_header_of unit) "EXTNAME" in
      if has_version ev && bool_decide (is_Some eh) then
        match ev with
        | Some (HInt v) =>
            r <-- first_loop rest (Z.max highest_ver v) ;; ok (unit :: r.1, r.2)
        | _ => raise (TypeError "unorderable types: int() and str()")
        end
      else if negb (is_primary unit) then first_loop rest highest_ver
      else r <-- first_loop rest highest_ver ;; ok (unit :: r.1, r.2)
  end.

(** What the second loop does to an image unit that the first one
    left out. *)
Definition complete (unit : ImageHDU) (highest_ver : Z) : ImageHDU :=
  let header := hdu_header unit in
  let header := if bool_decide (Hdr.get header "EXTNAME" = None)
                then Hdr.set header "EXTNAME" (HStr default_extension)
                else header in
  let header := if negb (has_version (Hdr.get header "EXTVER"))
                then Hdr.set header "EXTVER" (HInt highest_ver)
                else header in
  {| hdu_data := hdu_data unit; hdu_header := header |}.

(** The second loop: the units it adds. *)
Fixpoint second_loop (hdulist : list HDU) (highest_ver : Z) : list HDU :=
  match hdulist with
  | [] => []
  | unit :: rest =>
      if recognized unit then second_loop rest highest_ver
      else
        match unit with
        | Image u =>
            let highest_ver := highest_ver + 1 in
            Image (complete u highest_ver) :: second_loop rest highest_ver
        | _ => unit :: second_loop rest highest_ver
        end
  end.

(** The pixels of the only unit of a single image file; a unit
    without pixels gives the empty array. *)
Definition pixels_of (u : HDU) : Array :=
  match u with
  | Primary u => default [] (phdu_data u)
  | Image u => hdu_data u
  | BinTable _ => []
  end.

(** The list built before it is sorted. *)
Definition new_list (hdulist : list HDU) : result (list HDU) :=
  if decide (1 < length hdulist)%nat then
    r <-- first_loop hdulist 0 ;;
    ok (r.1 ++ second_loop hdulist r.2)
  else
    match hdulist with
    | [] => raise (IndexError "list index out of range")
    | unit :: _ =>
        let header := hdu_header_of unit in
        let image_header :=
          Hdr.set
            (Hdr.set (Hdr.remove (Hdr.remove header "SIMPLE") "EXTEND")
               "EXTNAME" (HStr default_extension))
            "EXTVER" (HInt 1) in
        ok [Primary {| phdu_data := None; phdu_header := header |};
            Image {| hdu_data := pixels_of unit; hdu_header := image_header |}]
    end.

Definition _prepare_hdulist (hdulist : list HDU) : result (list HDU) :=
  l <-- new_list hdulist ;; sorted_units l.

End FitsLoader.

(** ** Notions used in the statements *)

(** The positions, counted from [n], of the headers that lack [key]. *)
Fixpoint missing_from (key : string) (n : nat) (hs : list Header) : list nat :=
  match hs with
  | [] => []
  | h :: hs' =>
      match Hdr.get h key with
      | Some _ => missing_from key (S n) hs'
      | None => n :: missing_from key (S n) hs'
      end
  end.

(** The header list is one longer than the record list. *)
Definition header_invariant (self : FitsProvider) : Prop :=
  length (_header self) = S (length (nddata self)).






(** The provider after [_lazy_populate_object]. *)
Definition populated (self : FitsProvider) : FitsProvider :=
  (_lazy_populate_object self).2.







(** The header in which [_reset_ver] writes the version for an
    auxiliary payload: the header recorded under the name of the
    payload, or else the header that a table or a nested record keeps
    itself. *)
Definition own_header (p : Payload) : option Header :=
  match p with
  | PTable t => tbl_meta_header t
  | PNDData _ h => h
  | PArray _ | PObject _ => None
  end.

Definition payload_header (oheaders : gmap string Header) (entry : string * Payload)
    : option Header :=
  match oheaders !! entry.1 with
  | Some h => Some h
  | None => own_header entry.2
  end.

(** A table or a nested record for which there is such a header. *)
Definition payload_complete (oheaders : gmap string Header) (entry : string * Payload) : Prop :=
  match entry.2 with
  | PTable _ | PNDData _ _ => is_Some (payload_header oheaders entry)
  | PArray _ | PObject _ => True
  end.


(** Providers and units for the examples. *)
Module Ex.

Definition phu : Header := [("SIMPLE", HStr "T")].

Definition sci (v : Z) : Header := [("EXTNAME", HStr "SCI"); ("EXTVER", HInt v)].

Definition record (v : Z) : NDData :=
  {| nd_data := []; nd_uncertainty := None; nd_mask := None;
     meta_header := Some (sci v); meta_ver := Some (HInt v); meta_name := None;
     meta_other := Some []; meta_other_header := Some ∅ |}.

(** A provider with three extensions of versions 1, 2 and 3. *)
Definition three : FitsProvider :=
  {| _header := [phu; sci 1; sci 2; sci 3];
     _nddata := Some [record 1; record 2; record 3];
     _tables := ∅; _exposed := ∅ |}.


(** A table with one column, named in its header. *)
Definition catalogue (name : string) : Table :=
  {| tbl_columns := [("ID", [HInt 1])]; tbl_meta_header := Some [("EXTNAME", HStr name)] |}.

(** A record with an uncertainty, a mask and two auxiliary payloads. *)
Definition full_record : NDData :=
  {| nd_data := [1%R]; nd_uncertainty := Some {| array := [2%R] |}; nd_mask := Some [0%R];
     meta_header := Some (sci 1); meta_ver := Some (HInt 1); meta_name := None;
     meta_other := Some [("OBJMASK", PArray [1%R]); ("OBJCAT", PTable (catalogue "OBJCAT"))];
     meta_other_header := Some ∅ |}.

(** A provider with that record and two free tables. *)
Definition with_tables : FitsProvider :=
  {| _header := [phu; sci 1]; _nddata := Some [full_record];
     _tables := <["REFCAT" := catalogue "REFCAT"]> (<["MDF" := catalogue "MDF"]> ∅);
     _exposed := {["REFCAT"; "MDF"]} |}.

(** Units as a file may hold them: a table and two image units
    without names, one of them with a version, and a science unit. *)
Definition mixed_units : list HDU :=
  [Primary {| phdu_data := None; phdu_header := phu |};
   BinTable {| bt_columns := []; bt_header := [] |};
   Image {| hdu_data := []; hdu_header := [("EXTVER", HInt 7)] |};
   Image {| hdu_data := []; hdu_header := [] |};
   Image {| hdu_data := []; hdu_header := sci 1 |}].

End Ex.

(** The order of serialisation, as the specification words it. *)
Module Spec.








End Spec.

(** The normalisation of the loader, as the specification words it. *)
Module Normal.

Definition is_image (u : HDU) : bool :=
  match u with
  | Image _ => true
  | _ => false
  end.

(** A unit that comes with both a name and a version. *)
Definition named_versioned (u : HDU) : bool :=
  has_version (Hdr.get (hdu_header_of u) "EXTVER")
  && bool_decide (is_Some (Hdr.get (hdu_header_of u) "EXTNAME")).

(** An image unit that lacks a name or a version. *)
Definition pending (u : HDU) : bool := is_image u && negb (named_versioned u).

(** The versions of the units that come with a name and a version. *)
Fixpoint known_versions (hdulist : list HDU) : list Z :=
  match hdulist with
  | [] => []
  | u :: rest =>
      match Hdr.get (hdu_header_of u) "EXTVER" with
      | Some (HInt v) =>
          if named_versioned u then v :: known_versions rest else known_versions rest
      | _ => known_versions rest
      end
  end.

(** The highest of them, 0 without any. *)
Definition highest (hdulist : list HDU) : Z := py_max 0 (known_versions hdulist).

(** The sequence with every pending image unit completed where it
    stands; [counter] is the last version that was given out. *)
Fixpoint completed (counter : Z) (hdulist : list HDU) : list HDU :=
  match hdulist with
  | [] => []
  | Image u :: rest =>
      if pending (Image u)
      then Image (FitsLoader.complete u (counter + 1)) :: completed (counter + 1) rest
      else Image u :: completed counter rest
  | unit :: rest => unit :: completed counter rest
  end.

(** The cards that the keys are computed from have the types of
    FITS: EXTVER is an integer and EXTNAME a string. *)
Definition well_typed (u : HDU) : Prop :=
  (forall v, Hdr.get (hdu_header_of u) "EXTVER" = Some v -> exists z, v = HInt z) /\
  (forall v, Hdr.get (hdu_header_of u) "EXTNAME" = Some v -> exists s, v = HStr s).

(** The order of the keys. *)
Definition key_le (a b : Z * string) : Prop := key_leb a b = true.

End Normal.

(** The version a new top-level record gets among records of
    versions [vs]. *)
Definition next_ver (vs : list Z) : Z :=
  match vs with
  | [] => 1
  | v :: vs' => py_max v vs' + 1
  end.

(** * Properties *)

(** ** The result monads *)


Lemma collect_ok_Forall2 {A B} (f : A -> result B) (l : list A) (r : list B) :
  collect f l = ok r <-> Forall2 (fun x y => f x = ok y) l r.
Proof.
  revert r. induction l as [|x l IH]; intros r; simpl.
  - split; [intros [= <-]; constructor | intros H; inversion H; reflexivity].
  - split.
    + destruct (f x) as [e|y] eqn:Hx; simpl; [discriminate|].
      destruct (collect f l) as [e|ys] eqn:Hl; simpl; [discriminate|].
      intros [= <-]. constructor; [exact Hx | apply IH; reflexivity].
    + intros H. inversion H as [|? y ? ys Hx Hl]; subst.
      rewrite Hx. simpl. apply IH in Hl. rewrite Hl. reflexivity.
Qed.

(** ** The keyword manipulator *)

Section Manip_facts.
Context (key : string).

Lemma getitem_loop_spec hs : forall n missing_at ret raised,
  Manip.getitem_loop key n hs missing_at ret raised
  = (missing_at ++ missing_from key n hs,
     ret ++ ((fun h => Hdr.get h key) <$> hs),
     raised || bool_decide (missing_from key n hs <> [])).
Proof.
  induction hs as [|h hs IH]; intros n missing_at ret raised; simpl.
  - rewrite !app_nil_r, orb_false_r. reflexivity.
  - destruct (Hdr.get h key) as [v|] eqn:Hg; rewrite IH, <- !app_assoc; simpl.
    + reflexivity.
    + rewrite orb_true_r. reflexivity.
Qed.

Lemma missing_from_elem hs : forall n i,
  i ∈ missing_from key n hs
  <-> exists j, i = (n + j)%nat /\ ((fun h => Hdr.get h key) <$> hs) !! j = Some None.
Proof.
  induction hs as [|h hs IH]; intros n i; simpl.
  - split; [intros H; inversion H | intros (j & _ & H); discriminate].
  - destruct (Hdr.get h key) as [v|] eqn:Hg.
    + rewrite IH. split.
      * intros (j & -> & Hj). exists (S j). split; [lia | exact Hj].
      * intros (j & -> & Hj). destruct j as [|j]; simpl in Hj; [congruence|].
        exists j. split; [lia | exact Hj].
    + rewrite elem_of_cons, IH. split.
      * intros [-> | (j & -> & Hj)].
        -- exists 0%nat. split; [lia | reflexivity].
        -- exists (S j). split; [lia | exact Hj].
      * intros (j & -> & Hj). destruct j as [|j]; simpl in Hj.
        -- left. lia.
        -- right. exists j. split; [lia | exact Hj].
Qed.

Lemma missing_from_nil hs n :
  missing_from key n hs = [] <-> Forall is_Some ((fun h => Hdr.get h key) <$> hs).
Proof.
  revert n. induction hs as [|h hs IH]; intros n; simpl.
  - split; [constructor | reflexivity].
  - destruct (Hdr.get h key) as [v|] eqn:Hg.
    + rewrite IH. split; [intros H; constructor; eauto | intros H; inversion H; auto].
    + split; [discriminate | intros H; inversion H as [|? ? Hn]; destruct Hn; discriminate].
Qed.

Lemma missing_from_sorted hs : forall n,
  StronglySorted lt (missing_from key n hs) /\ Forall (le n) (missing_from key n hs).
Proof.
  induction hs as [|h hs IH]; intros n; simpl.
  - split; constructor.
  - destruct (IH (S n)) as [Hs Hle].
    assert (Forall (le n) (missing_from key (S n) hs))
      by (eapply Forall_impl; [exact Hle | simpl; lia]).
    assert (Forall (lt n) (missing_from key (S n) hs))
      by (eapply Forall_impl; [exact Hle | simpl; lia]).
    destruct (Hdr.get h key); split; auto; constructor; auto.
Qed.

Lemma fill_default_lookup dflt miss : forall (vals : list (option HVal)) i,
  Manip.fill_default vals miss dflt !! i
  = if decide (i ∈ miss /\ (i < length vals)%nat) then Some dflt else vals !! i.
Proof.
  unfold Manip.fill_default.
  induction miss as [|m miss IH]; intros vals i; cbn [foldl].
  - destruct (decide _) as [[H _]|H]; [inversion H | reflexivity].
  - rewrite IH, length_insert.
    destruct (decide (i = m)) as [->|Hne].
    + destruct (decide (m < length vals)%nat) as [Hlt|Hge].
      * rewrite list_lookup_insert_eq by exact Hlt.
        repeat destruct (decide _); try reflexivity; exfalso;
          rewrite ?elem_of_cons in *; intuition congruence.
      * rewrite list_insert_ge by lia.
        repeat destruct (decide _); try reflexivity; exfalso; intuition lia.
    + rewrite list_lookup_insert_ne by congruence.
      repeat destruct (decide _); try reflexivity; exfalso;
        rewrite ?elem_of_cons in *; intuition congruence.
Qed.

Lemma fill_default_missing dflt hs :
  Manip.fill_default ((fun h => Hdr.get h key) <$> hs) (missing_from key 0 hs) dflt
  = from_option Some dflt <$> ((fun h => Hdr.get h key) <$> hs).
Proof.
  apply list_eq. intros i.
  generalize ((fun h => Hdr.get h key) <$> hs) (missing_from_elem hs 0 i).
  intros vals Hel. rewrite fill_default_lookup, list_lookup_fmap.
  destruct (decide _) as [[Hi _]|H].
  - apply Hel in Hi as (j & -> & Hj).
    change (0 + j)%nat with j. rewrite Hj. reflexivity.
  - destruct (vals !! i) as [[v|]|] eqn:Hv; simpl; try reflexivity.
    exfalso. apply H. split.
    + apply Hel. exists i. split; [lia | exact Hv].
    + eapply lookup_lt_Some. exact Hv.
Qed.

Lemma fmap_from_option_present dflt (vals : list (option HVal)) :
  Forall is_Some vals -> from_option Some dflt <$> vals = vals.
Proof.
  induction 1 as [|v vals [x ->] _ IH]; simpl; [reflexivity|].
  f_equal. exact IH.
Qed.

End Manip_facts.

(** C8.  In extension mode, reading one key gives the single value of
    a single-header view and the sequence of per-header values
    otherwise.  When some header lacks the key the read raises the
    [KeyError] that carries the positions of those headers, in
    increasing order, and the vector of values with [None] at those
    positions; [get] returns that vector with the default at exactly
    those positions. *)
Theorem get_one_key_across_headers
    (hs : list Header) (single : bool) (key : string) (dflt : option HVal) :
  let self := {| _headers := hs; _single := single; _on_ext := true |} in
  let vals := (fun h => Hdr.get h key) <$> hs in
  (forall values : list (option HVal), length values = length hs ->
     (single = true /\ length hs = 1%nat ->
        exists v, values = [v] /\ Manip._ret_ext self values = ok (One v)) /\
     (~ (single = true /\ length hs = 1%nat) ->
        Manip._ret_ext self values = ok (Many values))) /\
  (Forall is_Some vals -> Manip.getitem self key = Manip._ret_ext self vals) /\
  (~ Forall is_Some vals ->
     exists missing_at,
       Manip.getitem self key = raise (KeyErrorAt missing_at vals) /\
       StronglySorted lt missing_at /\
       forall n, n ∈ missing_at <-> vals !! n = Some None) /\
  Manip.get self key dflt = Manip._ret_ext self (from_option Some dflt <$> vals).
Proof.
  intros self vals.
  assert (Hloop : Manip.getitem self key
                  = if bool_decide (missing_from key 0 hs <> [])
                    then raise (KeyErrorAt (missing_from key 0 hs) vals)
                    else Manip._ret_ext self vals).
  { unfold Manip.getitem. simpl. rewrite getitem_loop_spec. reflexivity. }
  split; [|split; [|split]].
  - intros values Hlen. unfold Manip._ret_ext. simpl. split.
    + intros [-> Hone]. rewrite Hone in Hlen.
      destruct values as [|v [|w values]]; simpl in Hlen; try discriminate.
      exists v. rewrite bool_decide_eq_true_2 by exact Hone. split; reflexivity.
    + intros Hnot. destruct single; simpl; [|reflexivity].
      rewrite bool_decide_eq_false_2; [reflexivity|]. intros Hone. apply Hnot. auto.
  - intros Hall. rewrite Hloop. apply (missing_from_nil key hs 0) in Hall.
    rewrite bool_decide_eq_false_2; [reflexivity|]. intros H. apply H. exact Hall.
  - intros Hsome. exists (missing_from key 0 hs). split; [|split].
    + rewrite Hloop, bool_decide_eq_true_2; [reflexivity|].
      intros Hnil. apply Hsome. apply (missing_from_nil key hs 0). exact Hnil.
    + apply missing_from_sorted.
    + intros n. rewrite missing_from_elem. split.
      * intros (j & -> & Hj). exact Hj.
      * intros Hn. exists n. split; [reflexivity | exact Hn].
  - unfold Manip.get. rewrite Hloop.
    destruct (bool_decide (missing_from key 0 hs <> [])) eqn:Hm.
    + simpl. f_equal. apply fill_default_missing.
    + apply bool_decide_eq_false in Hm.
      assert (Hall : Forall is_Some vals).
      { apply (missing_from_nil key hs 0). destruct (missing_from key 0 hs); [reflexivity|].
        exfalso. apply Hm. discriminate. }
      rewrite (fmap_from_option_present dflt vals Hall).
      destruct (Manip._ret_ext self vals) as [e|r] eqn:Hr; [|reflexivity].
      unfold Manip._ret_ext in Hr.
      destruct (_single self && bool_decide (length (_headers self) = 1%nat));
        [destruct vals; inversion Hr; reflexivity | discriminate].
Qed.

Lemma get_one_key_across_headers_witness :
  let hs := [Ex.sci 1; Ex.phu; Ex.sci 3] in
  let self := {| _headers := hs; _single := false; _on_ext := true |} in
  let vals := (fun h => Hdr.get h "EXTVER") <$> hs in
  ~ Forall is_Some vals /\
  exists missing_at,
    Manip.getitem self "EXTVER" = raise (KeyErrorAt missing_at vals) /\
    StronglySorted lt missing_at /\
    forall n, n ∈ missing_at <-> vals !! n = Some None.
Proof.
  assert (H : ~ Forall is_Some
                ((fun h => Hdr.get h "EXTVER") <$> [Ex.sci 1; Ex.phu; Ex.sci 3])).
  { intros H. apply Forall_cons in H as [_ H]. apply Forall_cons in H as [[x Hx] _].
    discriminate Hx. }
  split; [exact H|].
  exact (proj1 (proj2 (proj2
    (get_one_key_across_headers [Ex.sci 1; Ex.phu; Ex.sci 3] false "EXTVER" None))) H).
Defined.

(** ** Indices *)

Lemma range_bounds start stop step lo hi :
  step <> 0 ->
  (0 < step -> lo <= start /\ stop <= hi) ->
  (step < 0 -> start < hi /\ lo - 1 <= stop) ->
  Forall (fun i => lo <= i < hi) (Builtins.range start stop step).
Proof.
  intros Hstep Hpos Hneg. unfold Builtins.range, Builtins.range_length.
  apply Forall_fmap, Forall_forall. intros k Hk.
  apply elem_of_seq in Hk. simpl.
  destruct (decide (0 < step)) as [Hs|Hs].
  - destruct (Hpos Hs) as [Hlo Hhi].
    destruct (decide (start < stop)) as [Hlt|Hge]; [|simpl in Hk; lia].
    assert (Hq : 0 <= (stop - 1 - start) `div` step) by (apply Z.div_pos; lia).
    assert (Hk' : Z.of_nat k <= (stop - 1 - start) `div` step) by lia.
    pose proof (Z.mul_div_le (stop - 1 - start) step Hs) as Hm.
    assert (Z.of_nat k * step <= (stop - 1 - start) `div` step * step) by nia.
    nia.
  - assert (Hs' : step < 0) by lia. destruct (Hneg Hs') as [Hhi Hlo].
    destruct (decide (stop < start)) as [Hlt|Hge]; [|simpl in Hk; lia].
    assert (Hq : 0 <= (start - 1 - stop) `div` (- step)) by (apply Z.div_pos; lia).
    assert (Hk' : Z.of_nat k <= (start - 1 - stop) `div` (- step)) by lia.
    pose proof (Z.mul_div_le (start - 1 - stop) (- step) ltac:(lia)) as Hm.
    assert (Z.of_nat k * (- step) <= (start - 1 - stop) `div` (- step) * (- step)) by nia.
    nia.
Qed.

Lemma slice_indices_ok start stop step n :
  0 <= n -> step <> Some 0 ->
  exists a b c, Builtins.slice_indices start stop step n = ok (a, b, c) /\
    c = default 1 step /\ c <> 0 /\
    (0 < c -> 0 <= a /\ b <= n) /\ (c < 0 -> a < n /\ -1 <= b).
Proof.
  intros Hn Hstep. unfold Builtins.slice_indices.
  destruct (decide (n < 0)) as [?|_]; [lia|].
  assert (Hc : default 1 step <> 0) by (destruct step as [s|]; simpl; [congruence | lia]).
  destruct (decide (default 1 step = 0)) as [?|_]; [contradiction|].
  eexists _, _, _. split; [reflexivity|]. split; [reflexivity|]. split; [exact Hc|].
  split; intros Hs.
  - destruct (decide (default 1 step < 0)); [lia|].
    split.
    + destruct start as [s|]; [|lia]. destruct (decide (s < 0)); lia.
    + destruct stop as [s|]; [|lia]. destruct (decide (s < 0)); lia.
  - destruct (decide (default 1 step < 0)); [|lia].
    split.
    + destruct start as [s|]; [|lia]. destruct (decide (s < 0)); lia.
    + destruct stop as [s|]; [|lia]. destruct (decide (s < 0)); lia.
Qed.

Lemma slice_indices_ok_inv start stop step n a b c :
  Builtins.slice_indices start stop step n = ok (a, b, c) -> 0 <= n /\ step <> Some 0.
Proof.
  unfold Builtins.slice_indices.
  destruct (decide (n < 0)); [discriminate|].
  destruct (decide (default 1 step = 0)) as [?|Hc]; [discriminate|].
  intros _. split; [lia|]. intros ->. apply Hc. reflexivity.
Qed.

Lemma existsb_ge_false (l : list Z) n :
  Forall (fun i => 0 <= i < n) l -> existsb (fun i => bool_decide (i >= n)) l = false.
Proof.
  induction 1 as [|x l Hx _ IH]; simpl; [reflexivity|].
  rewrite IH, orb_false_r. apply bool_decide_eq_false. lia.
Qed.

Lemma normalize_slice start stop step n :
  0 <= n -> step <> Some 0 ->
  exists a b c, Builtins.slice_indices start stop step n = ok (a, b, c) /\
    normalize_indices (IdxSlice start stop step) n = ok (Builtins.range a b c, true) /\
    Forall (fun i => 0 <= i < n) (Builtins.range a b c).
Proof.
  intros Hn Hstep.
  destruct (slice_indices_ok start stop step n Hn Hstep)
    as (a & b & c & Hsl & _ & Hc & Hpos & Hneg).
  exists a, b, c. split; [exact Hsl|].
  assert (Hr : Forall (fun i => 0 <= i < n) (Builtins.range a b c)).
  { apply range_bounds; [exact Hc | lia | intros H; specialize (Hneg H); lia]. }
  split; [|exact Hr].
  unfold normalize_indices. rewrite Hsl. simpl.
  rewrite (existsb_ge_false _ _ Hr). reflexivity.
Qed.

Lemma normalize_slice_no_index_error start stop step n msg :
  normalize_indices (IdxSlice start stop step) n <> raise (IndexError msg).
Proof.
  destruct (decide (0 <= n)) as [Hn|Hn].
  - destruct (decide (step = Some 0)) as [->|Hs].
    + unfold normalize_indices, Builtins.slice_indices. simpl.
      destruct (decide (n < 0)); simpl; discriminate.
    + destruct (normalize_slice start stop step n Hn Hs) as (a & b & c & _ & -> & _).
      discriminate.
  - unfold normalize_indices, Builtins.slice_indices.
    destruct (decide (n < 0)); [simpl; discriminate | lia].
Qed.

(** ** Population *)

Lemma lazy_eq self : _lazy_populate_object self = (ok (), populated self).
Proof. unfold populated, _lazy_populate_object. destruct (_nddata self); reflexivity. Qed.

Lemma populated_header self : _header (populated self) = _header self.
Proof. unfold populated, _lazy_populate_object. destruct (_nddata self); reflexivity. Qed.

Lemma populated_nddata self : nddata (populated self) = nddata self.
Proof.
  unfold populated, _lazy_populate_object, nddata.
  destruct (_nddata self) eqn:H; simpl; [rewrite H|]; reflexivity.
Qed.

Lemma populated_some self : _nddata (populated self) = Some (nddata self).
Proof.
  unfold populated, _lazy_populate_object, nddata.
  destruct (_nddata self) eqn:H; simpl; [rewrite H|]; reflexivity.
Qed.

Lemma populated_idem self : populated (populated self) = populated self.
Proof.
  unfold populated at 1, _lazy_populate_object. rewrite populated_some. reflexivity.
Qed.

(** [__getitem__] populates the provider and hands the normalised
    indices to [_slice]. *)
Lemma getitem_unfold slc self :
  getitem slc self
  = match normalize_indices slc (len self) with
    | inl e => (inl e, populated self)
    | inr (indices, multiple) =>
        (ok {| Proxy._mapping := indices; Proxy._single := negb multiple |}, populated self)
    end.
Proof.
  unfold getitem, mbind at 1. rewrite lazy_eq, populated_header. fold (len self).
  destruct (normalize_indices slc (len self)) as [e|[indices multiple]]; [reflexivity|].
  unfold _slice, mbind, mret. rewrite lazy_eq, populated_idem. reflexivity.
Qed.

Lemma slice_eq indices multi self :
  _slice indices multi self
  = (ok {| Proxy._mapping := indices; Proxy._single := negb multi |}, populated self).
Proof. unfold _slice, mbind, mret. rewrite lazy_eq. reflexivity. Qed.

Lemma pylist_getitem_in_range {A} (l : list A) (i : Z) :
  0 <= i < Z.of_nat (length l) -> PyList.getitem l i = l !! Z.to_nat i.
Proof.
  intros Hi. unfold PyList.getitem, PyList.norm_index.
  destruct (decide (0 <= i < Z.of_nat (length l))); [reflexivity | contradiction].
Qed.

Lemma collect_getitem_in_range {A} (l : list A) (idxs : list Z) :
  Forall (fun i => 0 <= i < Z.of_nat (length l)) idxs ->
  exists ys, collect (fun idx => index_error (PyList.getitem l idx)) idxs = ok ys /\
    Forall2 (fun idx y => l !! Z.to_nat idx = Some y) idxs ys.
Proof.
  induction 1 as [|i idxs Hi _ (ys & Hys & Hall)]; simpl.
  - exists []. split; [reflexivity | constructor].
  - rewrite (pylist_getitem_in_range l i Hi).
    destruct (l !! Z.to_nat i) as [y|] eqn:Hy.
    + simpl. rewrite Hys. simpl. exists (y :: ys). split; [reflexivity|].
      constructor; assumption.
    + apply lookup_ge_None in Hy. lia.
Qed.

(** C10.  Indexing with a slice never raises [IndexError]: on a
    provider, and on a slice of several extensions, the selected
    indices are the [range] over [s.indices(n)], all of them at least
    0 and below [n]. *)
Theorem slice_index_never_out_of_range
    (self : FitsProvider) (start stop step : option Z) :
  let slc := IdxSlice start stop step in
  (forall msg, (getitem slc self).1 <> raise (IndexError msg)) /\
  (forall a b c, Builtins.slice_indices start stop step (len self) = ok (a, b, c) ->
     (getitem slc self).1
     = ok {| Proxy._mapping := Builtins.range a b c; Proxy._single := false |} /\
     Forall (fun i => 0 <= i < len self) (Builtins.range a b c)) /\
  (forall px : Proxy.t, Proxy._single px = false ->
     (forall msg, (proxy_getitem px slc self).1 <> raise (IndexError msg)) /\
     (forall a b c,
        Builtins.slice_indices start stop step (Proxy.len px) = ok (a, b, c) ->
        Forall (fun i => 0 <= i < Proxy.len px) (Builtins.range a b c) /\
        exists mapped,
          (proxy_getitem px slc self).1
          = ok {| Proxy._mapping := mapped; Proxy._single := false |} /\
          Forall2 (fun idx m => Proxy._mapping px !! Z.to_nat idx = Some m)
            (Builtins.range a b c) mapped)).
Proof.
  intros slc. split; [|split].
  - intros msg. rewrite getitem_unfold.
    pose proof (normalize_slice_no_index_error start stop step (len self) msg) as Hn.
    fold slc in Hn.
    destruct (normalize_indices slc (len self)) as [e|[indices multiple]]; simpl.
    + intros [= ->]. apply Hn. reflexivity.
    + discriminate.
  - intros a b c Hsl. destruct (slice_indices_ok_inv _ _ _ _ _ _ _ Hsl) as [Hn Hstep].
    destruct (normalize_slice start stop step (len self) Hn Hstep)
      as (a' & b' & c' & Hsl' & Hnorm & Hr).
    rewrite Hsl in Hsl'. injection Hsl' as <- <- <-.
    split; [|exact Hr]. rewrite getitem_unfold. fold slc in Hnorm. rewrite Hnorm.
    reflexivity.
  - intros px Hmulti. unfold proxy_getitem. rewrite Hmulti. split.
    + intros msg.
      pose proof (normalize_slice_no_index_error start stop step (Proxy.len px) msg) as Hn.
      fold slc in Hn.
      destruct (normalize_indices slc (Proxy.len px)) as [e|[indices multiple]] eqn:Hnorm.
      * simpl. intros [= ->]. apply Hn. reflexivity.
      * destruct (decide (0 <= Proxy.len px)) as [Hlen|Hlen];
          [|unfold Proxy.len in Hlen; lia].
        destruct (decide (step = Some 0)) as [->|Hstep].
        { unfold slc, normalize_indices, Builtins.slice_indices in Hnorm.
          destruct (decide (Proxy.len px < 0)); simpl in Hnorm; discriminate. }
        destruct (normalize_slice start stop step (Proxy.len px) Hlen Hstep)
          as (a & b & c & _ & Hnorm' & Hr).
        fold slc in Hnorm'. rewrite Hnorm in Hnorm'. injection Hnorm' as -> ->.
        destruct (collect_getitem_in_range (Proxy._mapping px) _ Hr) as (ys & -> & _).
        cbv beta iota delta [ok]. rewrite slice_eq. discriminate.
    + intros a b c Hsl. destruct (slice_indices_ok_inv _ _ _ _ _ _ _ Hsl) as [Hn Hstep].
      destruct (normalize_slice start stop step (Proxy.len px) Hn Hstep)
        as (a' & b' & c' & Hsl' & Hnorm & Hr).
      rewrite Hsl in Hsl'. injection Hsl' as <- <- <-.
      split; [exact Hr|].
      fold slc in Hnorm. rewrite Hnorm. cbv beta iota delta [ok].
      destruct (collect_getitem_in_range (Proxy._mapping px) _ Hr) as (ys & -> & Hall).
      exists ys. cbv beta iota delta [ok]. rewrite slice_eq.
      split; [reflexivity | exact Hall].
Qed.

Lemma slice_index_never_out_of_range_witness :
  Builtins.slice_indices (Some (-10)) (Some 10) (Some 2) (len Ex.three) = ok (0, 3, 2) /\
  (getitem (IdxSlice (Some (-10)) (Some 10) (Some 2)) Ex.three).1
  = ok {| Proxy._mapping := Builtins.range 0 3 2; Proxy._single := false |} /\
  Forall (fun i => 0 <= i < len Ex.three) (Builtins.range 0 3 2).
Proof.
  split; [reflexivity|].
  apply (proj1 (proj2
    (slice_index_never_out_of_range Ex.three (Some (-10)) (Some 10) (Some 2)))).
  reflexivity.
Defined.

(** C5.  An integer index below [-n] is not turned away: on a provider
    of three extensions the index [-4] is normalised to [-1], the
    slice is built, and it resolves to the last extension. *)
Theorem getitem_below_range_accepted :
  normalize_indices (IdxInt (-4)) 3 = ok ([-1], false) /\
  (getitem (IdxInt (-4)) Ex.three).1
  = ok {| Proxy._mapping := [-1]; Proxy._single := true |} /\
  (Proxy._mapped_nddata_at {| Proxy._mapping := [-1]; Proxy._single := true |} 0
     Ex.three).1 = ok (Ex.record 3) /\
  (delitem (-4) Ex.three).1 = raise (IndexError "Index out of range").
Proof. repeat split; reflexivity. Qed.

(** C6.  Deleting the last of three extensions through the index
    [-1] removes the last record together with the primary header:
    the header of the deleted record stays in the header list. *)
Theorem delitem_negative_removes_other_header :
  delitem (-1) Ex.three
  = (ok (),
     {| _header := [Ex.sci 1; Ex.sci 2; Ex.sci 3];
        _nddata := Some [Ex.record 1; Ex.record 2];
        _tables := ∅; _exposed := ∅ |}).
Proof. reflexivity. Qed.

(** C9.  The public [append] turns every primary unit away with the
    error for a second primary unit, before the provider is populated
    or changed. *)
Theorem append_primary_rejected
    (self : FitsProvider) (u : PrimaryHDU) (name : option string)
    (header : option Header) (reset_ver : bool) :
  append (inl u) name header reset_ver self
  = (raise (ValueError "Only one Primary HDU allowed"), self).
Proof. reflexivity. Qed.

(** ** The append protocol *)

(** ** Versions *)

Lemma py_max_ge v vs : v <= py_max v vs /\ Forall (fun w => w <= py_max v vs) vs.
Proof.
  unfold py_max. revert v. induction vs as [|w vs IH]; intros v; simpl.
  - split; [lia | constructor].
  - destruct (IH (Z.max v w)) as [H1 H2]. split; [lia|].
    constructor; [lia | exact H2].
Qed.






Lemma get_max_ver_eq self vs :
  vers_of (nddata self) = ok vs -> _get_max_ver self = ok (next_ver vs).
Proof. intros H. unfold _get_max_ver. rewrite H. destruct vs; reflexivity. Qed.




(** The call of [_append_array] in [_append_imagehdu] does what
    [_append_array] does: it never asks for a new top-level plane. *)
Lemma _append_imagehdu_array unit name header add_to reset_ver :
  name = Some "DQ" \/ name = Some "VAR" \/ is_Some add_to ->
  _append_imagehdu unit name header add_to reset_ver
  = _append_array (hdu_data unit) name None add_to.
Proof.
  intros H. unfold _append_imagehdu, _append_array.
  destruct add_to as [k|].
  - rewrite orb_true_r. reflexivity.
  - assert (Hn : name = Some "DQ" \/ name = Some "VAR").
    { destruct H as [H | [H | [x H]]]; [left; exact H | right; exact H | discriminate]. }
    rewrite bool_decide_eq_true_2 by exact Hn. simpl.
    destruct Hn as [-> | ->]; reflexivity.
Qed.



Lemma append_unfold ext name header reset_ver self :
  append (inr ext) name header reset_ver self
  = _append ext name header None reset_ver (populated self).
Proof. unfold append, mbind. rewrite lazy_eq. reflexivity. Qed.


Lemma pylist_delitem_cases {A} (l : list A) (i : Z) :
  (exists k, PyList.delitem l i = Some (delete k l) /\ (k < length l)%nat /\
     - Z.of_nat (length l) <= i < Z.of_nat (length l) /\
     k = Z.to_nat (if decide (0 <= i) then i else Z.of_nat (length l) + i)) \/
  (PyList.delitem l i = None /\ ~ - Z.of_nat (length l) <= i < Z.of_nat (length l)).
Proof.
  unfold PyList.delitem, PyList.norm_index.
  destruct (decide (0 <= i < Z.of_nat (length l))) as [H1|H1]; simpl.
  - left. eexists. split; [reflexivity|]. split; [lia|]. split; [lia|].
    destruct (decide (0 <= i)); [reflexivity | lia].
  - destruct (decide (- Z.of_nat (length l) <= i < 0)) as [H2|H2]; simpl.
    + left. eexists. split; [reflexivity|]. split; [lia|]. split; [lia|].
      destruct (decide (0 <= i)); [lia | reflexivity].
    + right. split; [reflexivity | lia].
Qed.

Lemma nddata_with_header hs self : nddata (with_header hs self) = nddata self.
Proof. reflexivity. Qed.

(** [__delitem__] with an index from 0 on removes the record at the
    index and the header one position further. *)
Lemma delitem_nonneg idx self :
  header_invariant self -> 0 <= idx < len self ->
  delitem idx self
  = (ok (),
     with_nddata (delete (Z.to_nat idx) (nddata self))
       (with_header (delete (S (Z.to_nat idx)) (_header self)) (populated self))).
Proof.
  intros Hinv Hidx. unfold header_invariant in Hinv. unfold len in Hidx.
  unfold delitem, mbind. rewrite lazy_eq, populated_header.
  destruct (decide _) as [Hout|_]; [lia|].
  destruct (pylist_delitem_cases (_header self) (idx + 1))
    as [(j & -> & _ & _ & ->) | [_ Hno]]; [|exfalso; lia].
  rewrite nddata_with_header, populated_nddata.
  destruct (pylist_delitem_cases (nddata self) idx)
    as [(k & -> & _ & _ & ->) | [_ Hno]]; [|exfalso; lia].
  destruct (decide (0 <= idx + 1)); [|lia]. destruct (decide (0 <= idx)); [|lia].
  replace (Z.to_nat (idx + 1)) with (S (Z.to_nat idx)) by lia. reflexivity.
Qed.






(** ** Attaching to a record *)

















(** ** Variance *)


Lemma norm_index_lt len i k : PyList.norm_index len i = Some k -> (k < len)%nat.
Proof.
  unfold PyList.norm_index. repeat destruct (decide _); intros [= <-]; lia.
Qed.

Lemma nddata_with_nddata nds self : nddata (with_nddata nds self) = nds.
Proof. reflexivity. Qed.

(** The record a single slice is bound to. *)
Lemma proxy_target i k self :
  PyList.norm_index (length (nddata self)) i = Some k ->
  Proxy.target {| Proxy._mapping := [i]; Proxy._single := true |} self
  = (ok k, populated self).
Proof.
  intros Hk. unfold Proxy.target, mbind. rewrite lazy_eq, populated_nddata.
  cbn [Proxy._mapping]. change (PyList.getitem [i] 0) with (Some i).
  cbn [index_error rbind ok]. rewrite Hk. reflexivity.
Qed.

Lemma proxy_mapped_nddata i k self :
  PyList.norm_index (length (nddata self)) i = Some k ->
  Proxy._mapped_nddata_at {| Proxy._mapping := [i]; Proxy._single := true |} 0 self
  = (index_error (nddata self !! k), populated self).
Proof.
  intros Hk. unfold Proxy._mapped_nddata_at, mbind.
  rewrite lazy_eq, populated_nddata.
  cbn [Proxy._mapping]. change (PyList.getitem [i] 0) with (Some i).
  cbn [index_error rbind ok]. unfold PyList.getitem. rewrite Hk. reflexivity.
Qed.




(** ** Sorting *)

Section sorted_by_facts.
Context {A : Type} (le : A -> A -> bool).
Context (le_total : forall a b, le a b = true \/ le b a = true).

Lemma insert_by_perm x l : insert_by le x l ≡ₚ x :: l.
Proof.
  induction l as [|y l IH]; simpl; [reflexivity|].
  destruct (le x y); [reflexivity|].
  rewrite IH. apply Permutation_swap.
Qed.

Lemma sorted_by_perm l : sorted_by le l ≡ₚ l.
Proof.
  induction l as [|x l IH]; simpl; [reflexivity|].
  rewrite insert_by_perm, IH. reflexivity.
Qed.

Lemma insert_by_hd x l a :
  le a x = true -> HdRel (fun a b => le a b = true) a l ->
  HdRel (fun a b => le a b = true) a (insert_by le x l).
Proof.
  intros Hax Hhd. destruct l as [|y l]; simpl; [constructor; exact Hax|].
  destruct (le x y); constructor; [exact Hax|].
  inversion Hhd; assumption.
Qed.

Lemma insert_by_sorted x l :
  Sorted (fun a b => le a b = true) l -> Sorted (fun a b => le a b = true) (insert_by le x l).
Proof.
  induction 1 as [|y l Hs IH Hhd]; simpl; [repeat constructor|].
  destruct (le x y) eqn:Hxy.
  - constructor; [constructor; assumption | constructor; exact Hxy].
  - constructor; [exact IH|]. apply insert_by_hd; [|exact Hhd].
    destruct (le_total x y) as [H|H]; [congruence | exact H].
Qed.

Lemma sorted_by_sorted l : Sorted (fun a b => le a b = true) (sorted_by le l).
Proof.
  induction l as [|x l IH]; simpl; [constructor|].
  apply insert_by_sorted. exact IH.
Qed.

End sorted_by_facts.

(** ** The order of strings *)

Lemma ascii_compare_N a b : Ascii.compare a b = N.compare (Ascii.N_of_ascii a) (Ascii.N_of_ascii b).
Proof. reflexivity. Qed.

Lemma string_leb_trans a : forall b c,
  String.leb a b = true -> String.leb b c = true -> String.leb a c = true.
Proof.
  unfold String.leb.
  induction a as [|x a IH]; intros [|y b] [|z c]; simpl; try (intros; congruence).
  rewrite !ascii_compare_N.
  destruct (N.compare_spec (Ascii.N_of_ascii x) (Ascii.N_of_ascii y)) as [Hxy|Hxy|Hxy];
    destruct (N.compare_spec (Ascii.N_of_ascii y) (Ascii.N_of_ascii z)) as [Hyz|Hyz|Hyz];
    destruct (N.compare_spec (Ascii.N_of_ascii x) (Ascii.N_of_ascii z)) as [Hxz|Hxz|Hxz];
    try (intros; congruence); try (exfalso; lia).
  apply IH.
Qed.



(** ** Serialisation *)











(** The units written for [Ex.with_tables]. *)
Example to_hdulist_with_tables :
  (to_hdulist Ex.with_tables).1
  = ok [Primary {| phdu_data := None; phdu_header := Ex.phu |};
        Image {| hdu_data := [1%R]; hdu_header := Ex.sci 1 |};
        Image {| hdu_data := np_square [2%R];
                 hdu_header := [("EXTNAME", HStr "VAR"); ("EXTVER", HInt 1)] |};
        Image {| hdu_data := [0%R];
                 hdu_header := [("EXTNAME", HStr "DQ"); ("EXTVER", HInt 1)] |};
        Image {| hdu_data := [1%R];
                 hdu_header := [("EXTNAME", HStr "OBJMASK"); ("EXTVER", HInt 1)] |};
        BinTable {| bt_columns := [("ID", [HInt 1])];
                    bt_header := [("EXTNAME", HStr "OBJCAT")] |};
        BinTable {| bt_columns := [("ID", [HInt 1])];
                    bt_header := [("EXTNAME", HStr "MDF")] |};
        BinTable {| bt_columns := [("ID", [HInt 1])];
                    bt_header := [("EXTNAME", HStr "REFCAT")] |}].
Proof. reflexivity. Qed.

(** ** Header cards *)

Lemma hdr_get_set_eq h key v : Hdr.get (Hdr.set h key v) key = Some v.
Proof.
  induction h as [|[k w] h IH]; simpl.
  - destruct (decide (key = key)); [reflexivity | contradiction].
  - destruct (decide (k = key)) as [->|Hne]; simpl.
    + destruct (decide (key = key)); [reflexivity | contradiction].
    + destruct (decide (k = key)); [contradiction | exact IH].
Qed.

Lemma hdr_get_set_ne h key key' v : key <> key' -> Hdr.get (Hdr.set h key v) key' = Hdr.get h key'.
Proof.
  intros Hne. induction h as [|[k w] h IH]; simpl.
  - destruct (decide (key = key')); [contradiction | reflexivity].
  - destruct (decide (k = key)) as [->|Hk]; simpl.
    + destruct (decide (key = key')); [contradiction | reflexivity].
    + destruct (decide (k = key')); [reflexivity | exact IH].
Qed.

(** ** The order of keys *)

Lemma key_leb_total a b : key_leb a b = true \/ key_leb b a = true.
Proof.
  unfold key_leb. destruct a as [v n], b as [w m]; simpl.
  destruct (Z.lt_trichotomy v w) as [H | [-> | H]].
  - left. rewrite bool_decide_eq_true_2 by exact H. reflexivity.
  - rewrite !(bool_decide_eq_false_2 (w < w)) by lia.
    rewrite !(bool_decide_eq_true_2 (w = w)) by reflexivity. simpl.
    apply String.leb_total.
  - right. rewrite bool_decide_eq_true_2 by exact H. reflexivity.
Qed.

Lemma key_leb_spec a b :
  key_leb a b = true <-> a.1 < b.1 \/ (a.1 = b.1 /\ String.leb a.2 b.2 = true).
Proof.
  unfold key_leb. rewrite orb_true_iff, andb_true_iff, !bool_decide_eq_true. reflexivity.
Qed.

Lemma key_leb_trans a b c : key_leb a b = true -> key_leb b c = true -> key_leb a c = true.
Proof.
  rewrite !key_leb_spec. intros [H1 | [H1 H1']] [H2 | [H2 H2']].
  - left. lia.
  - left. lia.
  - left. lia.
  - right. split; [lia|]. eapply string_leb_trans; eassumption.
Qed.






(** ** The loader *)

Lemma recognized_eq u :
  FitsLoader.recognized u = Normal.named_versioned u || is_primary u.
Proof. reflexivity. Qed.

Lemma first_loop_spec l : forall hv r,
  FitsLoader.first_loop l hv = ok r ->
  r.1 = filter (fun u => Is_true (FitsLoader.recognized u)) l /\
  r.2 = py_max hv (Normal.known_versions l).
Proof.
  induction l as [|u l IH]; intros hv r; cbn [FitsLoader.first_loop Normal.known_versions].
  - intros [= <-]. split; reflexivity.
  - pose proof (recognized_eq u) as Hrec. unfold Normal.named_versioned in *.
    destruct (has_version (Hdr.get (hdu_header_of u) "EXTVER")
              && bool_decide (is_Some (Hdr.get (hdu_header_of u) "EXTNAME"))) eqn:Hnv.
    + rewrite filter_cons_True by (rewrite Hrec; exact I).
      destruct (Hdr.get (hdu_header_of u) "EXTVER") as [[v|s]|]; try discriminate.
      destruct (FitsLoader.first_loop l (Z.max hv v)) as [e|r'] eqn:Hr; [discriminate|].
      intros [= <-]. destruct (IH _ _ Hr) as [H1 H2]. cbn [fst snd rbind].
      split; [f_equal; exact H1 | exact H2].
    + assert (Hkv : match Hdr.get (hdu_header_of u) "EXTVER" with
                    | Some (HInt v) => Normal.known_versions l
                    | _ => Normal.known_versions l
                    end = Normal.known_versions l)
        by (destruct (Hdr.get (hdu_header_of u) "EXTVER") as [[v|s]|]; reflexivity).
      rewrite Hkv. simpl in Hrec. destruct (is_primary u); cbn [negb].
      * rewrite filter_cons_True by (rewrite Hrec; exact I).
        destruct (FitsLoader.first_loop l hv) as [e|r'] eqn:Hr; [discriminate|].
        intros [= <-]. destruct (IH _ _ Hr) as [H1 H2]. cbn [fst snd rbind].
        split; [f_equal; exact H1 | exact H2].
      * rewrite filter_cons_False by (rewrite Hrec; intros []).
        apply IH.
Qed.

Lemma first_loop_total l : forall hv,
  Forall Normal.well_typed l -> exists r, FitsLoader.first_loop l hv = ok r.
Proof.
  induction l as [|u l IH]; intros hv Hwt; simpl; [eexists; reflexivity|].
  apply Forall_cons in Hwt as [[Hv _] Hwt].
  destruct (has_version (Hdr.get (hdu_header_of u) "EXTVER")
            && bool_decide (is_Some (Hdr.get (hdu_header_of u) "EXTNAME"))) eqn:Hnv.
  - destruct (Hdr.get (hdu_header_of u) "EXTVER") as [w|] eqn:Hw; [|discriminate].
    destruct (Hv w eq_refl) as [z ->].
    destruct (IH (Z.max hv z) Hwt) as [r ->]. simpl. eexists. reflexivity.
  - destruct (negb (is_primary u)); [apply IH; exact Hwt|].
    destruct (IH hv Hwt) as [r ->]. simpl. eexists. reflexivity.
Qed.

Lemma second_loop_completed l : forall c,
  filter (fun u => Is_true (FitsLoader.recognized u)) l ++ FitsLoader.second_loop l c
  ≡ₚ Normal.completed c l.
Proof.
  induction l as [|u l IH]; intros c; [reflexivity|].
  cbn [FitsLoader.second_loop Normal.completed].
  pose proof (recognized_eq u) as Hrec.
  destruct (FitsLoader.recognized u) eqn:Hr.
  - rewrite filter_cons_True by (rewrite Hr; exact I).
    destruct u as [p|iu|b]; try (apply Permutation_skip, IH).
    unfold Normal.pending. simpl in Hrec. rewrite orb_false_r in Hrec.
    rewrite <- Hrec. simpl. apply Permutation_skip, IH.
  - rewrite filter_cons_False by (rewrite Hr; intros []).
    destruct u as [p|iu|b].
    + simpl in Hrec. rewrite orb_true_r in Hrec. discriminate.
    + unfold Normal.pending. simpl in Hrec. rewrite orb_false_r in Hrec.
      rewrite <- Hrec. simpl.
      rewrite <- Permutation_middle. apply Permutation_skip, IH.
    + rewrite <- Permutation_middle. apply Permutation_skip, IH.
Qed.

(** The cards of a completed image unit. *)
Lemma complete_cards u k :
  hdu_data (FitsLoader.complete u k) = hdu_data u /\
  Hdr.get (hdu_header (FitsLoader.complete u k)) "EXTNAME"
  = Some (default (HStr default_extension) (Hdr.get (hdu_header u) "EXTNAME")) /\
  Hdr.get (hdu_header (FitsLoader.complete u k)) "EXTVER"
  = Some (if has_version (Hdr.get (hdu_header u) "EXTVER")
          then default (HInt k) (Hdr.get (hdu_header u) "EXTVER")
          else HInt k).
Proof.
  unfold FitsLoader.complete. simpl. split; [reflexivity|].
  set (h1 := if bool_decide (Hdr.get (hdu_header u) "EXTNAME" = None)
             then Hdr.set (hdu_header u) "EXTNAME" (HStr default_extension)
             else hdu_header u).
  assert (Hn : Hdr.get h1 "EXTNAME"
               = Some (default (HStr default_extension) (Hdr.get (hdu_header u) "EXTNAME"))).
  { unfold h1. destruct (Hdr.get (hdu_header u) "EXTNAME") as [n|] eqn:Hg.
    - rewrite bool_decide_eq_false_2 by discriminate. exact Hg.
    - rewrite bool_decide_eq_true_2 by reflexivity. apply hdr_get_set_eq. }
  assert (Hv : Hdr.get h1 "EXTVER" = Hdr.get (hdu_header u) "EXTVER").
  { unfold h1. destruct (bool_decide _); [|reflexivity].
    apply hdr_get_set_ne. discriminate. }
  rewrite Hv. destruct (has_version (Hdr.get (hdu_header u) "EXTVER")) eqn:Hhv; simpl.
  - split; [exact Hn|]. rewrite Hv.
    destruct (Hdr.get (hdu_header u) "EXTVER"); [reflexivity | discriminate].
  - split; [|apply hdr_get_set_eq].
    rewrite hdr_get_set_ne by discriminate. exact Hn.
Qed.

Lemma complete_named_versioned u k :
  k <> -1 -> Normal.named_versioned (Image (FitsLoader.complete u k)) = true.
Proof.
  intros Hk. unfold Normal.named_versioned. cbn [hdu_header_of].
  destruct (complete_cards u k) as (_ & -> & ->).
  rewrite (bool_decide_eq_true_2 _ (mk_is_Some _ _ eq_refl)), andb_true_r.
  unfold has_version at 1.
  destruct (has_version (Hdr.get (hdu_header u) "EXTVER")) eqn:Hhv.
  - unfold has_version in Hhv.
    destruct (Hdr.get (hdu_header u) "EXTVER") as [w|]; [exact Hhv | discriminate].
  - apply negb_true_iff, bool_decide_eq_false. intros [= H]. contradiction.
Qed.

Lemma complete_well_typed u k :
  Normal.well_typed (Image u) -> Normal.well_typed (Image (FitsLoader.complete u k)).
Proof.
  intros [Hv Hn]. unfold Normal.well_typed. cbn [hdu_header_of] in *.
  destruct (complete_cards u k) as (_ & -> & ->). split.
  - intros v [= <-]. destruct (has_version _); [|eexists; reflexivity].
    destruct (Hdr.get (hdu_header u) "EXTVER") as [w|]; [|eexists; reflexivity].
    apply Hv. reflexivity.
  - intros v [= <-].
    destruct (Hdr.get (hdu_header u) "EXTNAME") as [w|]; [|eexists; reflexivity].
    apply Hn. reflexivity.
Qed.

Lemma py_max_ge_init v vs : v <= py_max v vs.
Proof. apply py_max_ge. Qed.

Lemma completed_facts l : forall c,
  0 <= c ->
  (Forall Normal.well_typed l -> Forall Normal.well_typed (Normal.completed c l)) /\
  Forall (fun u => Normal.is_image u = true -> Normal.named_versioned u = true)
    (Normal.completed c l).
Proof.
  induction l as [|u l IH]; intros c Hc; simpl; [split; constructor|].
  destruct u as [p|iu|b].
  - destruct (IH c Hc) as [H1 H2]. split.
    + intros Hwt. apply Forall_cons in Hwt as [Hu Hwt]. constructor; auto.
    + constructor; [discriminate | exact H2].
  - destruct (Normal.pending (Image iu)) eqn:Hp.
    + destruct (IH (c + 1) ltac:(lia)) as [H1 H2]. split.
      * intros Hwt. apply Forall_cons in Hwt as [Hu Hwt].
        constructor; [apply complete_well_typed; exact Hu | auto].
      * constructor; [|exact H2]. intros _. apply complete_named_versioned. lia.
    + destruct (IH c Hc) as [H1 H2]. split.
      * intros Hwt. apply Forall_cons in Hwt as [Hu Hwt]. constructor; auto.
      * constructor; [|exact H2]. intros _. unfold Normal.pending in Hp. simpl in Hp.
        apply negb_false_iff in Hp. exact Hp.
  - destruct (IH c Hc) as [H1 H2]. split.
    + intros Hwt. apply Forall_cons in Hwt as [Hu Hwt]. constructor; auto.
    + constructor; [discriminate | exact H2].
Qed.




Lemma Forall2_zip_pairs {A B} (P : A -> B -> Prop) l k :
  Forall2 P l k -> Forall (fun p => P p.2 p.1) (zip k l).
Proof. induction 1; simpl; constructor; assumption. Qed.

Lemma Forall_pairs_Forall2 {A B} (P : A -> B -> Prop) (ps : list (B * A)) :
  Forall (fun p => P p.2 p.1) ps -> Forall2 P ps.*2 ps.*1.
Proof. induction 1; simpl; constructor; assumption. Qed.

Lemma sorted_units_spec l out :
  sorted_units l = ok out ->
  out ≡ₚ l /\
  exists keys, collect fits_ext_comp_key out = ok keys /\ StronglySorted Normal.key_le keys.
Proof.
  unfold sorted_units.
  destruct (collect fits_ext_comp_key l) as [e|keys] eqn:Hk; [discriminate|].
  cbn [rbind]. intros [= <-].
  set (le := fun a b : Z * string * HDU => key_leb a.1 b.1).
  pose proof (sorted_by_perm le (zip keys l)) as Hperm.
  apply collect_ok_Forall2 in Hk.
  split.
  - rewrite Hperm. rewrite snd_zip; [reflexivity|].
    apply Forall2_length in Hk. lia.
  - exists (sorted_by le (zip keys l)).*1. split.
    + apply collect_ok_Forall2.
      apply (Forall_pairs_Forall2 (fun u k => fits_ext_comp_key u = ok k)).
      rewrite Hperm.
      apply (Forall2_zip_pairs (fun u k => fits_ext_comp_key u = ok k)). exact Hk.
    + apply (StronglySorted_fmap fst (fun a b : Z * string * HDU => le a b = true)).
      * intros a b H. exact H.
      * apply Sorted_StronglySorted.
        -- intros a b c. apply key_leb_trans.
        -- apply sorted_by_sorted. intros a b. apply key_leb_total.
Qed.


(** A file with a single image. *)
Lemma prepare_single u :
  FitsLoader._prepare_hdulist [u]
  = ok [Primary {| phdu_data := None; phdu_header := hdu_header_of u |};
        Image {| hdu_data := FitsLoader.pixels_of u;
                 hdu_header :=
                   Hdr.set
                     (Hdr.set (Hdr.remove (Hdr.remove (hdu_header_of u) "SIMPLE") "EXTEND")
                        "EXTNAME" (HStr default_extension))
                     "EXTVER" (HInt 1) |}].
Proof.
  unfold FitsLoader._prepare_hdulist, FitsLoader.new_list.
  destruct (decide (1 < length [u])%nat) as [H|_]; [simpl in H; lia|].
  cbn [rbind ok]. unfold sorted_units. cbn [collect].
  set (h := Hdr.set (Hdr.set _ "EXTNAME" _) "EXTVER" _).
  assert (Hkey : fits_ext_comp_key (Image {| hdu_data := FitsLoader.pixels_of u;
                                             hdu_header := h |})
                 = ok (1, default_extension)).
  { unfold fits_ext_comp_key. cbn [hdu_header_of hdu_header]. unfold h.
    rewrite hdr_get_set_eq, (hdr_get_set_ne _ "EXTVER" "EXTNAME") by discriminate.
    rewrite hdr_get_set_eq. reflexivity. }
  rewrite Hkey. reflexivity.
Qed.

Lemma prepare_many hdulist :
  (1 < length hdulist)%nat ->
  FitsLoader._prepare_hdulist hdulist
  = (r <-- FitsLoader.first_loop hdulist 0 ;;
     sorted_units (r.1 ++ FitsLoader.second_loop hdulist r.2)).
Proof.
  intros Hlen. unfold FitsLoader._prepare_hdulist, FitsLoader.new_list.
  destruct (decide (1 < length hdulist)%nat) as [_|H]; [|contradiction].
  destruct (FitsLoader.first_loop hdulist 0); reflexivity.
Qed.




(** The units the loader makes of [Ex.mixed_units]. *)
Example prepare_mixed_units :
  FitsLoader._prepare_hdulist Ex.mixed_units
  = ok [Primary {| phdu_data := None; phdu_header := Ex.phu |};
        Image {| hdu_data := []; hdu_header := Ex.sci 1 |};
        Image {| hdu_data := [];
                 hdu_header := [("EXTNAME", HStr "SCI"); ("EXTVER", HInt 3)] |};
        Image {| hdu_data := [];
                 hdu_header := [("EXTVER", HInt 7); ("EXTNAME", HStr "SCI")] |};
        BinTable {| bt_columns := []; bt_header := [] |}].
Proof. reflexivity. Qed.

(** ** Writing and deleting keywords *)

(** A manipulator reads from its headers by [Hdr.get] alone. *)
Lemma manip_getitem_ext (self self' : FitsKeywordManipulator) (key : string) :
  _single self' = _single self -> _on_ext self' = _on_ext self ->
  length (_headers self') = length (_headers self) ->
  (fun h => Hdr.get h key) <$> _headers self' = (fun h => Hdr.get h key) <$> _headers self ->
  Manip.getitem self' key = Manip.getitem self key.
Proof.
  intros Hs Ho Hl Hv. unfold Manip.getitem. rewrite Ho.
  destruct (_on_ext self).
  - rewrite !getitem_loop_spec. simpl.
    assert (Hm : forall hs hs' n,
               (fun h => Hdr.get h key) <$> hs' = (fun h => Hdr.get h key) <$> hs ->
               missing_from key n hs' = missing_from key n hs).
    { clear. induction hs as [|h hs IH]; intros [|h' hs'] n; simpl; try discriminate;
        [reflexivity|].
      intros [= Hh Ht]. rewrite Hh, (IH hs' (S n) Ht). reflexivity. }
    rewrite (Hm _ _ 0%nat Hv), Hv.
    destruct (bool_decide _); [reflexivity|].
    unfold Manip._ret_ext. rewrite Hs, Hl. reflexivity.
  - destruct (_headers self') as [|h' hs'], (_headers self) as [|h hs];
      simpl in *; try discriminate; [reflexivity|].
    injection Hv as Hh _. rewrite Hh. reflexivity.
Qed.

Lemma hdr_get_filter_ne (h : Header) (key key' : string) :
  key' <> key ->
  Hdr.get (filter (fun c : string * HVal => c.1 ≠ key) h) key' = Hdr.get h key'.
Proof.
  intros Hne. unfold Header in *. induction h as [|[k w] h IH]; [reflexivity|].
  destruct (decide (k = key)) as [->|Hk].
  - rewrite filter_cons_False by (simpl; auto). simpl.
    destruct (decide (key = key')); [congruence | exact IH].
  - rewrite filter_cons_True by (simpl; auto). simpl.
    destruct (decide (k = key')); [reflexivity | exact IH].
Qed.

Lemma hdr_get_filter_eq (h : Header) (key : string) :
  Hdr.get (filter (fun c : string * HVal => c.1 ≠ key) h) key = None.
Proof.
  unfold Header in *. induction h as [|[k w] h IH]; [reflexivity|].
  destruct (decide (k = key)) as [->|Hk].
  - rewrite filter_cons_False by (simpl; auto). exact IH.
  - rewrite filter_cons_True by (simpl; auto). simpl.
    destruct (decide (k = key)); [contradiction | exact IH].
Qed.

Lemma hdr_contains_spec (h : Header) (key : string) :
  Hdr.contains h key = true <-> is_Some (Hdr.get h key).
Proof. unfold Hdr.contains. apply bool_decide_eq_true. Qed.

Lemma hdr_delitem_Some (h h' : Header) (key : string) :
  Hdr.delitem h key = Some h' ->
  Hdr.contains h key = true /\ Hdr.contains h' key = false /\
  forall key', key' <> key -> Hdr.get h' key' = Hdr.get h key'.
Proof.
  unfold Hdr.delitem. destruct (Hdr.contains h key) eqn:Hc; [|discriminate].
  intros [= <-]. split; [reflexivity|]. split.
  - unfold Hdr.contains. rewrite hdr_get_filter_eq. apply bool_decide_eq_false.
    intros [x Hx]. discriminate.
  - intros key' Hne. apply hdr_get_filter_ne. exact Hne.
Qed.

Lemma hdr_delitem_None (h : Header) (key : string) :
  Hdr.delitem h key = None <-> Hdr.contains h key = false.
Proof.
  unfold Hdr.delitem. destruct (Hdr.contains h key); split; congruence.
Qed.

(** What the loop of [remove] leaves: every header without the
    keyword, the other keywords as they were, and a count that is
    [0] exactly when no header had the keyword. *)
Lemma remove_loop_spec (key : string) (hs : list Header) : forall deleted,
  let r := Manip.remove_loop key hs deleted in
  length r.1 = length hs /\
  Forall (fun h => Hdr.contains h key = false) r.1 /\
  (forall key', key' <> key ->
     (fun h => Hdr.get h key') <$> r.1 = (fun h => Hdr.get h key') <$> hs) /\
  (existsb (fun h => Hdr.contains h key) hs = false -> r = (hs, deleted)) /\
  (existsb (fun h => Hdr.contains h key) hs = true -> (deleted < r.2)%nat).
Proof.
  induction hs as [|h hs IH]; intros deleted; cbv zeta.
  - simpl. repeat split; auto. discriminate.
  - cbn [Manip.remove_loop existsb]. destruct (Hdr.delitem h key) as [h'|] eqn:Hd.
    + apply hdr_delitem_Some in Hd as (Hc & Hc' & Hframe).
      specialize (IH (S deleted)). cbv zeta in IH.
      destruct (Manip.remove_loop key hs (S deleted)) as [hs'' d] eqn:Hr.
      destruct IH as (Hlen & Hall & Hfr & Hno & Hyes). cbn [fst snd] in *.
      split; [simpl; lia|]. split; [constructor; assumption|]. split.
      { intros key' Hne. rewrite !fmap_cons, (Hframe key' Hne), (Hfr key' Hne). reflexivity. }
      rewrite Hc. cbn [orb]. split; [discriminate|]. intros _.
      destruct (existsb (fun h0 => Hdr.contains h0 key) hs) eqn:He.
      * specialize (Hyes eq_refl). lia.
      * specialize (Hno eq_refl). injection Hno as _ ->. lia.
    + apply hdr_delitem_None in Hd.
      specialize (IH deleted). cbv zeta in IH.
      destruct (Manip.remove_loop key hs deleted) as [hs'' d] eqn:Hr.
      destruct IH as (Hlen & Hall & Hfr & Hno & Hyes). cbn [fst snd] in *.
      split; [simpl; lia|]. split; [constructor; assumption|]. split.
      { intros key' Hne. rewrite !fmap_cons, (Hfr key' Hne). reflexivity. }
      rewrite Hd. cbn [orb]. split.
      * intros He. specialize (Hno He). injection Hno as -> ->. reflexivity.
      * exact Hyes.
Qed.

(** X1 -- [FitsKeywordManipulator.set] writes the keyword into every
    bound header: a read of the keyword that follows finds the value
    in each of them and never raises, with or without a default, and
    a read of any other keyword gives what it gave before. *)
Theorem manip_set_then_read (self : FitsKeywordManipulator) (key : string) (v : HVal)
    (dflt : option HVal) :
  _headers self <> [] ->
  let written := Manip.set self key v in
  let values := replicate (length (_headers self)) (Some v) in
  Manip.getitem written key
  = ok (if _on_ext self
        then if _single self && bool_decide (length (_headers self) = 1%nat)
             then One (Some v) else Many values
        else One (Some v)) /\
  Manip.get written key dflt = Manip.getitem written key /\
  forall key', key' <> key -> Manip.getitem written key' = Manip.getitem self key'.
Proof.
  intros Hne written values.
  assert (Hvals : (fun h => Hdr.get h key) <$> _headers written = values).
  { unfold written, values. simpl. clear. induction (_headers self) as [|h hs IH];
      [reflexivity|]. simpl. rewrite hdr_get_set_eq. f_equal. exact IH. }
  assert (Hread : Manip.getitem written key
    = ok (if _on_ext self
          then if _single self && bool_decide (length (_headers self) = 1%nat)
               then One (Some v) else Many values
          else One (Some v))).
  { unfold Manip.getitem. change (_on_ext written) with (_on_ext self).
    destruct (_on_ext self).
    - rewrite getitem_loop_spec.
      assert (Hnil : missing_from key 0 (_headers written) = []).
      { apply missing_from_nil. rewrite Hvals. unfold values.
        apply Forall_replicate. eexists; reflexivity. }
      rewrite Hnil, Hvals. cbn [app orb]. rewrite bool_decide_eq_false_2 by auto.
      unfold Manip._ret_ext. change (_single written) with (_single self).
      replace (length (_headers written)) with (length (_headers self))
        by (unfold written; simpl; rewrite length_fmap; reflexivity).
      destruct (_single self && bool_decide (length (_headers self) = 1%nat)) eqn:Hb;
        [|reflexivity].
      apply andb_true_iff in Hb as [_ Hb]. apply bool_decide_eq_true in Hb.
      unfold values. rewrite Hb. reflexivity.
    - unfold written. simpl. destruct (_headers self) as [|h hs]; [contradiction|].
      simpl. rewrite hdr_get_set_eq. reflexivity. }
  split; [exact Hread|]. split.
  - unfold Manip.get. rewrite Hread. reflexivity.
  - intros key' Hk. apply manip_getitem_ext; try reflexivity.
    + unfold written. simpl. apply length_fmap.
    + unfold written. simpl. rewrite <- list_fmap_compose. apply list_fmap_ext.
      intros i h _. simpl. apply hdr_get_set_ne. congruence.
Qed.

Lemma manip_set_then_read_witness :
  let self := {| _headers := [Ex.sci 1; Ex.phu]; _single := false; _on_ext := true |} in
  Manip.getitem (Manip.set self "GAIN" (HInt 2)) "GAIN" = ok (Many [Some (HInt 2); Some (HInt 2)]).
Proof.
  intros self.
  exact (proj1 (manip_set_then_read self "GAIN" (HInt 2) None ltac:(discriminate))).
Defined.

(** X2 -- [FitsKeywordManipulator.remove] succeeds exactly when
    [key in manipulator] holds.  It then deletes the keyword from
    every header it looks at, so that [key in manipulator] no longer
    holds, and the other keywords read as before; when the keyword is
    in none of them it raises [KeyError] and leaves the headers as
    they were. *)
Theorem manip_remove_contains (self : FitsKeywordManipulator) (key : string) (present : bool) :
  Manip.contains self key = ok present ->
  let r := Manip.remove self key in
  if present then
    r.1 = ok () /\ Manip.contains r.2 key = ok false /\
    forall key', key' <> key -> Manip.getitem r.2 key' = Manip.getitem self key'
  else
    (exists msg, r.1 = raise (KeyError msg)) /\ r.2 = self.
Proof.
  unfold Manip.contains, Manip.remove. destruct self as [hs single on_ext]. simpl.
  destruct on_ext.
  - intros [= <-]. pose proof (remove_loop_spec key hs 0%nat) as H. cbv zeta in H.
    destruct (Manip.remove_loop key hs 0) as [hs' deleted].
    destruct H as (Hlen & Hall & Hfr & Hno & Hyes). simpl in *.
    destruct (existsb (fun h => Hdr.contains h key) hs) eqn:He.
    + specialize (Hyes eq_refl). destruct (decide (deleted = 0%nat)); [lia|].
      split; [reflexivity|]. split.
      * f_equal. apply not_true_is_false. intros Hex.
        apply existsb_exists in Hex as (h & Hin & Hc).
        rewrite Forall_forall in Hall. apply list_elem_of_In in Hin.
        rewrite (Hall h Hin) in Hc. discriminate.
      * intros key' Hk. apply manip_getitem_ext; simpl; auto.
    + specialize (Hno eq_refl). injection Hno as -> ->. simpl.
      split; [eexists; reflexivity | reflexivity].
  - destruct hs as [|h hs]; [discriminate|]. intros [= <-].
    destruct (Hdr.delitem h key) as [h'|] eqn:Hd.
    + apply hdr_delitem_Some in Hd as (Hc & Hc' & Hframe). rewrite Hc. simpl.
      split; [reflexivity|]. split; [rewrite Hc'; reflexivity|].
      intros key' Hk. apply manip_getitem_ext; simpl; auto.
      rewrite (Hframe key' Hk). reflexivity.
    + apply hdr_delitem_None in Hd. rewrite Hd. simpl.
      split; [eexists; reflexivity | reflexivity].
Qed.

Lemma manip_remove_contains_witness :
  let self := {| _headers := [Ex.sci 1; Ex.phu]; _single := false; _on_ext := true |} in
  (Manip.remove self "EXTVER").1 = ok () /\
  Manip.contains (Manip.remove self "EXTVER").2 "EXTVER" = ok false.
Proof.
  intros self.
  pose proof (manip_remove_contains self "EXTVER" true eq_refl) as H.
  cbv zeta in H. split; [exact (proj1 H) | exact (proj1 (proj2 H))].
Defined.

(** ** Slices of a provider *)

(** An integer index within the bounds of a Python list is
    normalised to the position the list gives it. *)
Lemma normalize_int_in_range (i n : Z) (k : nat) :
  PyList.norm_index (Z.to_nat n) i = Some k -> 0 <= n ->
  normalize_indices (IdxInt i) n = ok ([Z.of_nat k], false).
Proof.
  unfold PyList.norm_index, normalize_indices. intros H Hn. simpl.
  destruct (decide (0 <= i < Z.of_nat (Z.to_nat n))) as [Hi|Hi].
  - injection H as <-. destruct (decide (i >= 0)); [|lia].
    rewrite bool_decide_eq_false_2 by lia. simpl. do 3 f_equal. lia.
  - destruct (decide (- Z.of_nat (Z.to_nat n) <= i < 0)) as [Hj|Hj]; [|discriminate].
    injection H as <-. destruct (decide (i >= 0)); [lia|].
    rewrite bool_decide_eq_false_2 by lia. simpl. do 3 f_equal. lia.
Qed.

Lemma len_invariant self : header_invariant self -> len self = Z.of_nat (length (nddata self)).
Proof. unfold header_invariant, len. intros ->. lia. Qed.

Lemma populated_len self : len (populated self) = len self.
Proof. unfold len. rewrite populated_header. reflexivity. Qed.

(** The headers and the record that a single slice of position [k]
    shows. *)
Lemma single_slice_shows self (k : nat) phu h nd :
  _header self !! 0%nat = Some phu -> _header self !! S k = Some h ->
  nddata self !! k = Some nd ->
  let px := {| Proxy._mapping := [Z.of_nat k]; Proxy._single := true |} in
  Proxy.header px (populated self) = ok [phu; h] /\
  Proxy._mapped_nddata_at px 0 (populated self) = (ok nd, populated self).
Proof.
  intros Hphu Hh Hnd px. split.
  - unfold Proxy.header. rewrite populated_header. simpl.
    assert (Hlen : (S k < length (_header self))%nat)
      by (apply lookup_lt_is_Some; eexists; exact Hh).
    rewrite !pylist_getitem_in_range by lia.
    replace (Z.to_nat (Z.of_nat k + 1)) with (S k) by lia.
    change (Z.to_nat 0) with 0%nat. rewrite Hphu, Hh. reflexivity.
  - assert (Hk : PyList.norm_index (length (nddata (populated self))) (Z.of_nat k) = Some k).
    { rewrite populated_nddata. unfold PyList.norm_index.
      apply lookup_lt_Some in Hnd. destruct (decide _) as [_|Hno]; [|lia].
      f_equal. lia. }
    unfold px. rewrite (proxy_mapped_nddata _ _ _ Hk), populated_nddata, Hnd, populated_idem.
    reflexivity.
Qed.

(** X3 -- Subscripting a provider with an integer that Python accepts
    for a list of its records (from [-len] to [len - 1]) gives a
    single slice of the record at that position: the slice shows the
    primary header followed by the header stored one place after the
    position, and its record is the record of the provider. *)
Theorem getitem_int_resolves (self : FitsProvider) (i : Z) (k : nat) :
  header_invariant self ->
  PyList.norm_index (length (nddata self)) i = Some k ->
  let px := {| Proxy._mapping := [Z.of_nat k]; Proxy._single := true |} in
  getitem (IdxInt i) self = (ok px, populated self) /\
  exists phu h nd,
    _header self !! 0%nat = Some phu /\ _header self !! S k = Some h /\
    nddata self !! k = Some nd /\
    Proxy.header px (populated self) = ok [phu; h] /\
    Proxy._mapped_nddata_at px 0 (populated self) = (ok nd, populated self).
Proof.
  intros Hinv Hk px. split.
  - rewrite getitem_unfold, (len_invariant self Hinv).
    rewrite (normalize_int_in_range i _ k); [reflexivity | | lia].
    rewrite Nat2Z.id. exact Hk.
  - pose proof (norm_index_lt _ _ _ Hk) as Hlt. unfold header_invariant in Hinv.
    destruct (lookup_lt_is_Some_2 (_header self) 0) as [phu Hphu]; [lia|].
    destruct (lookup_lt_is_Some_2 (_header self) (S k)) as [h Hh]; [lia|].
    destruct (lookup_lt_is_Some_2 (nddata self) k) as [nd Hnd]; [lia|].
    exists phu, h, nd. repeat (split; [assumption|]).
    apply single_slice_shows; assumption.
Qed.

Lemma getitem_int_resolves_witness :
  getitem (IdxInt (-1)) Ex.three
  = (ok {| Proxy._mapping := [2]; Proxy._single := true |}, populated Ex.three).
Proof.
  exact (proj1 (getitem_int_resolves Ex.three (-1) 2 eq_refl eq_refl)).
Defined.

(** A loop whose body gives a result and populates the provider. *)
Lemma mmap_populating {A B} (f : A -> M B) (g : A -> B) (l : list A) self :
  (forall x s, x ∈ l -> f x s = (ok (g x), populated s)) ->
  mmap f l self = (ok (g <$> l), if l is [] then self else populated self).
Proof.
  revert self. induction l as [|x l IH]; intros self Hf; [reflexivity|].
  cbn [mmap]. unfold mbind. rewrite Hf by (left).
  rewrite IH by (intros y s Hy; apply Hf; right; exact Hy).
  destruct l; unfold mret; rewrite ?populated_idem; reflexivity.
Qed.

Lemma range_from_zero (n : Z) :
  Builtins.range 0 n 1 = Z.of_nat <$> seq 0 (Z.to_nat n).
Proof.
  unfold Builtins.range, Builtins.range_length.
  destruct (decide (0 < 1)); [|lia].
  destruct (decide (0 < n)).
  - rewrite Z.div_1_r. replace (Z.to_nat (1 + (n - 1 - 0))) with (Z.to_nat n) by lia.
    apply list_fmap_ext. intros _ k _. lia.
  - replace (Z.to_nat n) with 0%nat by lia. reflexivity.
Qed.

Lemma getitem_nonneg (self : FitsProvider) (j : Z) :
  0 <= j < len self ->
  getitem (IdxInt j) self
  = (ok {| Proxy._mapping := [j]; Proxy._single := true |}, populated self).
Proof.
  intros Hj. rewrite getitem_unfold. unfold normalize_indices. simpl.
  destruct (decide (j >= 0)); [|lia].
  rewrite bool_decide_eq_false_2 by lia. reflexivity.
Qed.

(** X4 -- Iterating over a provider visits its extensions in order:
    there are [len] of them, and the slice yielded at position [k] is
    the single slice that subscripting with [k] returns. *)
Theorem iter_agrees_with_getitem (self : FitsProvider) :
  exists pxs,
    (iter self).1 = ok pxs /\
    Z.of_nat (length pxs) = Z.max 0 (len self) /\
    forall (k : nat) px, pxs !! k = Some px ->
      Proxy._single px = true /\
      getitem (IdxInt (Z.of_nat k)) self = (ok px, populated self).
Proof.
  unfold iter. rewrite range_from_zero.
  rewrite (mmap_populating _ (fun n => {| Proxy._mapping := [n]; Proxy._single := true |}))
    by (intros x s _; apply slice_eq).
  eexists. split; [reflexivity|]. split.
  - rewrite !length_fmap, length_seq. lia.
  - intros k px Hk. rewrite <- list_fmap_compose, list_lookup_fmap in Hk.
    destruct (seq 0 (Z.to_nat (len self)) !! k) as [n|] eqn:Hn; [|discriminate].
    apply lookup_seq in Hn as [-> Hlt]. injection Hk as <-. split; [reflexivity|].
    simpl. rewrite getitem_nonneg by lia. reflexivity.
Qed.

(** Subscripting a slice of several extensions with an integer. *)
Lemma proxy_getitem_int (px : Proxy.t) (i : Z) (k : nat) (j : Z) self :
  Proxy._single px = false ->
  PyList.norm_index (length (Proxy._mapping px)) i = Some k ->
  Proxy._mapping px !! k = Some j ->
  proxy_getitem px (IdxInt i) self
  = (ok {| Proxy._mapping := [j]; Proxy._single := true |}, populated self).
Proof.
  intros Hs Hk Hj. unfold proxy_getitem. rewrite Hs. unfold Proxy.len.
  rewrite (normalize_int_in_range i _ k); [| rewrite Nat2Z.id; exact Hk | lia].
  pose proof (norm_index_lt _ _ _ Hk) as Hlt.
  unfold ok at 1. cbv beta iota. cbn [collect]. rewrite pylist_getitem_in_range by lia.
  rewrite Nat2Z.id, Hj. simpl. apply slice_eq.
Qed.

(** X5 -- A single slice iterates to itself and cannot be
    subscripted.  Iterating over a slice of several extensions visits
    them in the order of the slice, and the slice yielded at position
    [k] is the one that subscripting the slice with [k] returns. *)
Theorem proxy_iter_agrees_with_getitem (px : Proxy.t) (self : FitsProvider) :
  if Proxy._single px then
    proxy_iter px self = (ok [px], self) /\
    forall slc, exists msg, proxy_getitem px slc self = (raise (TypeError msg), self)
  else
    exists pxs,
      (proxy_iter px self).1 = ok pxs /\
      length pxs = length (Proxy._mapping px) /\
      forall (k : nat) p, pxs !! k = Some p ->
        Proxy._single p = true /\
        (exists j, Proxy._mapping px !! k = Some j /\ Proxy._mapping p = [j]) /\
        (proxy_getitem px (IdxInt (Z.of_nat k)) self).1 = ok p.
Proof.
  destruct (Proxy._single px) eqn:Hs.
  - split.
    + unfold proxy_iter. rewrite Hs. reflexivity.
    + intros slc. unfold proxy_getitem. rewrite Hs. eexists. reflexivity.
  - unfold proxy_iter. rewrite Hs.
    rewrite (mmap_populating _ (fun n => {| Proxy._mapping := [n]; Proxy._single := true |}))
      by (intros x s _; apply slice_eq).
    eexists. split; [reflexivity|]. split; [apply length_fmap|].
    intros k p Hk. rewrite list_lookup_fmap in Hk.
    destruct (Proxy._mapping px !! k) as [j|] eqn:Hj; [|discriminate].
    injection Hk as <-. split; [reflexivity|]. split; [exists j; split; reflexivity|].
    rewrite (proxy_getitem_int px (Z.of_nat k) k j); [reflexivity | exact Hs | | exact Hj].
    apply lookup_lt_Some in Hj. unfold PyList.norm_index.
    destruct (decide _) as [_|Hno]; [|lia]. f_equal. lia.
Qed.

(** The indices of a slice that [__getitem__] returned are below
    the number of extensions. *)
Lemma getitem_mapping_below slc px self :
  (getitem slc self).1 = ok px -> Forall (fun j => j < len self) (Proxy._mapping px).
Proof.
  rewrite getitem_unfold. unfold normalize_indices.
  destruct (match slc with IdxInt _ => _ | _ => _ end) as [e|[indices multiple]];
    [discriminate|]. cbn [rbind].
  destruct (existsb _ indices) eqn:Hex; [discriminate|].
  intros [= <-]. simpl. rewrite Forall_forall. intros j Hj.
  destruct (decide (j < len self)) as [|Hge]; [assumption|]. exfalso.
  assert (existsb (fun i : Z => bool_decide (i >= len self)) indices = true).
  { apply existsb_exists. exists j. split; [apply list_elem_of_In; exact Hj|].
    apply bool_decide_eq_true. lia. }
  congruence.
Qed.

(** X6 -- Slicing composes: subscripting a slice of several
    extensions with an integer that Python accepts for its mapping
    gives the single slice that the provider itself returns for the
    mapped index. *)
Theorem reslice_composes (self : FitsProvider) (slc : Index) (px : Proxy.t)
    (i : Z) (k : nat) (j : Z) :
  (getitem slc self).1 = ok px -> Proxy._single px = false ->
  PyList.norm_index (length (Proxy._mapping px)) i = Some k ->
  Proxy._mapping px !! k = Some j -> 0 <= j ->
  proxy_getitem px (IdxInt i) self = getitem (IdxInt j) self.
Proof.
  intros Hget Hs Hk Hj Hpos.
  rewrite (proxy_getitem_int px i k j self Hs Hk Hj).
  pose proof (getitem_mapping_below slc px self Hget) as Hall.
  rewrite Forall_forall in Hall. specialize (Hall j (list_elem_of_lookup_2 _ _ _ Hj)).
  rewrite getitem_nonneg by lia. reflexivity.
Qed.

Lemma reslice_composes_witness :
  let px := {| Proxy._mapping := [1; 2]; Proxy._single := false |} in
  (getitem (IdxSlice (Some 1) None None) Ex.three).1 = ok px /\
  proxy_getitem px (IdxInt (-1)) Ex.three = getitem (IdxInt 2) Ex.three.
Proof.
  intros px.
  assert (H : (getitem (IdxSlice (Some 1) None None) Ex.three).1 = ok px) by reflexivity.
  split; [exact H|].
  apply (reslice_composes Ex.three (IdxSlice (Some 1) None None) px (-1) 1 2 H);
    [reflexivity | reflexivity | reflexivity | lia].
Defined.

(** X7 -- Subscripting a provider with a tuple of integers that
    Python accepts for a list of its records gives a slice of several
    extensions, also for a tuple of one index: it shows the records
    at the positions of the tuple, in the order of the tuple and with
    its repetitions, and after the primary header the headers stored
    one place after those positions. *)
Theorem getitem_tuple_resolves (self : FitsProvider) (t : list Z) (ks : list nat) :
  header_invariant self ->
  Forall2 (fun i k => PyList.norm_index (length (nddata self)) i = Some k) t ks ->
  let px := {| Proxy._mapping := Z.of_nat <$> ks; Proxy._single := false |} in
  getitem (IdxTuple t) self = (ok px, populated self) /\
  exists phu hs nds,
    _header self !! 0%nat = Some phu /\
    Forall2 (fun k h => _header self !! S k = Some h) ks hs /\
    Forall2 (fun k nd => nddata self !! k = Some nd) ks nds /\
    Proxy.header px (populated self) = ok (phu :: hs) /\
    Proxy._mapped_nddata px (populated self) = (ok nds, populated self).
Proof.
  intros Hinv Hks px.
  assert (Hlt : Forall (fun k => (k < length (nddata self))%nat) ks).
  { clear -Hks. induction Hks as [|i k t ks Hk _ IH]; constructor; [|exact IH].
    eapply norm_index_lt. exact Hk. }
  split.
  - rewrite getitem_unfold, (len_invariant self Hinv). unfold normalize_indices. cbn [rbind].
    assert (Hmap : (fun x => if decide (x >= 0) then x
                             else Z.of_nat (length (nddata self)) + x) <$> t
                   = Z.of_nat <$> ks).
    { clear -Hks. induction Hks as [|i k t ks Hk _ IH]; [reflexivity|].
      rewrite !fmap_cons, IH. f_equal.
      pose proof (normalize_int_in_range i (Z.of_nat (length (nddata self))) k) as Hn.
      rewrite Nat2Z.id in Hn. specialize (Hn Hk ltac:(lia)).
      unfold normalize_indices in Hn. simpl in Hn.
      destruct (bool_decide _) in Hn; [discriminate|]. injection Hn as Hn. exact Hn. }
    rewrite Hmap. cbv beta iota delta [rbind ok]. rewrite existsb_ge_false; [reflexivity|].
    apply Forall_fmap. eapply Forall_impl; [exact Hlt|]. simpl. intros k Hk. lia.
  - unfold header_invariant in Hinv.
    destruct (lookup_lt_is_Some_2 (_header self) 0) as [phu Hphu]; [lia|].
    assert (Hhs : exists hs, Forall2 (fun k h => _header self !! S k = Some h) ks hs).
    { clear -Hlt Hinv. induction Hlt as [|k ks Hk _ [hs IH]]; [exists []; constructor|].
      destruct (lookup_lt_is_Some_2 (_header self) (S k)) as [h Hh]; [lia|].
      exists (h :: hs). constructor; assumption. }
    assert (Hnds : exists nds, Forall2 (fun k nd => nddata self !! k = Some nd) ks nds).
    { clear -Hlt. induction Hlt as [|k ks Hk _ [nds IH]]; [exists []; constructor|].
      destruct (lookup_lt_is_Some_2 (nddata self) k) as [nd Hnd]; [lia|].
      exists (nd :: nds). constructor; assumption. }
    destruct Hhs as [hs Hhs], Hnds as [nds Hnds]. exists phu, hs, nds.
    split; [exact Hphu|]. split; [exact Hhs|]. split; [exact Hnds|]. split.
    + unfold Proxy.header. rewrite populated_header. cbn [collect].
      rewrite pylist_getitem_in_range by lia. change (Z.to_nat 0) with 0%nat.
      rewrite Hphu. cbn [index_error rbind].
      assert (Hc : collect (fun idx => index_error (PyList.getitem (_header self) idx))
                     ((fun n => n + 1) <$> Proxy._mapping px) = ok hs).
      { unfold px. simpl. clear -Hhs. induction Hhs as [|k h ks hs Hh _ IH]; [reflexivity|].
        rewrite !fmap_cons. cbn [collect].
        assert (Hl : (S k < length (_header self))%nat)
          by (apply lookup_lt_is_Some; eexists; exact Hh).
        rewrite pylist_getitem_in_range by lia.
        replace (Z.to_nat (Z.of_nat k + 1)) with (S k) by lia.
        rewrite Hh. cbn [index_error rbind]. rewrite IH. reflexivity. }
      rewrite Hc. reflexivity.
    + unfold Proxy._mapped_nddata, mbind. rewrite lazy_eq, populated_idem, populated_nddata.
      f_equal. unfold px. simpl. clear -Hnds.
      induction Hnds as [|k nd ks nds Hnd _ IH]; [reflexivity|].
      rewrite !fmap_cons. cbn [collect].
      assert (Hl : (k < length (nddata self))%nat)
        by (apply lookup_lt_is_Some; eexists; exact Hnd).
      rewrite pylist_getitem_in_range by lia. rewrite Nat2Z.id, Hnd.
      cbn [index_error rbind]. rewrite IH. reflexivity.
Qed.

Lemma getitem_tuple_resolves_witness :
  getitem (IdxTuple [-1; 0; 0]) Ex.three
  = (ok {| Proxy._mapping := [2; 0; 0]; Proxy._single := false |}, populated Ex.three).
Proof.
  refine (proj1 (getitem_tuple_resolves Ex.three [-1; 0; 0] [2; 0; 0]%nat eq_refl _)).
  repeat constructor.
Defined.

(** X8 -- Keywords read through a single slice come as bare values:
    the extension manipulator of the slice that an in-range integer
    index returns reads the header of that one extension; a keyword
    the header lacks raises the [KeyError] that names position 0, and
    [get] returns the default. *)
Theorem single_slice_keyword_read (self : FitsProvider) (i : Z) (k : nat) (key : string)
    (dflt : option HVal) :
  header_invariant self ->
  PyList.norm_index (length (nddata self)) i = Some k ->
  exists px h manip,
    (getitem (IdxInt i) self).1 = ok px /\ _header self !! S k = Some h /\
    proxy_ext_manipulator px (populated self) = ok manip /\
    Manip.getitem manip key
    = match Hdr.get h key with
      | Some v => ok (One (Some v))
      | None => raise (KeyErrorAt [0%nat] [None])
      end /\
    Manip.get manip key dflt = ok (One (from_option Some dflt (Hdr.get h key))).
Proof.
  intros Hinv Hk.
  pose proof (norm_index_lt _ _ _ Hk) as Hlt. unfold header_invariant in Hinv.
  destruct (lookup_lt_is_Some_2 (_header self) 0) as [phu Hphu]; [lia|].
  destruct (lookup_lt_is_Some_2 (_header self) (S k)) as [h Hh]; [lia|].
  destruct (lookup_lt_is_Some_2 (nddata self) k) as [nd Hnd]; [lia|].
  destruct (single_slice_shows self k phu h nd Hphu Hh Hnd) as [Hhdr _].
  exists {| Proxy._mapping := [Z.of_nat k]; Proxy._single := true |}, h,
    (Build_FitsKeywordManipulator [h] true true).
  split.
  { rewrite getitem_unfold, (len_invariant self Hinv).
    rewrite (normalize_int_in_range i _ k); [reflexivity | | lia].
    rewrite Nat2Z.id. exact Hk. }
  split; [exact Hh|]. split.
  { unfold proxy_ext_manipulator. rewrite Hhdr. reflexivity. }
  unfold Manip.get, Manip.getitem. simpl.
  destruct (Hdr.get h key) as [v|]; simpl; split; reflexivity.
Qed.

Lemma single_slice_keyword_read_witness :
  exists px manip,
    (getitem (IdxInt (-3)) Ex.three).1 = ok px /\
    proxy_ext_manipulator px (populated Ex.three) = ok manip /\
    Manip.getitem manip "EXTVER" = ok (One (Some (HInt 1))).
Proof.
  destruct (single_slice_keyword_read Ex.three (-3) 0 "EXTVER" None eq_refl eq_refl)
    as (px & h & manip & Hpx & Hh & Hm & Hget & _).
  exists px, manip. split; [exact Hpx|]. split; [exact Hm|].
  injection Hh as <-. exact Hget.
Defined.

(** ** Assigning through a single slice *)

Lemma with_nddata_populated self : with_nddata (nddata self) (populated self) = populated self.
Proof. destruct self as [hs [nds|] ts ex]; reflexivity. Qed.

(** An assignment to the record of a single slice replaces that
    record of the provider. *)
Lemma on_target {A} (f : NDData -> result A * NDData) i k nd self :
  PyList.norm_index (length (nddata self)) i = Some k ->
  nddata self !! k = Some nd ->
  (k' <~ Proxy.target {| Proxy._mapping := [i]; Proxy._single := true |} ;; on_record k' f) self
  = ((f nd).1, with_nddata (<[k := (f nd).2]> (nddata self)) (populated self)).
Proof.
  intros Hk Hnd. unfold mbind. rewrite (proxy_target i k self Hk).
  cbv beta iota delta [ok]. unfold on_record. rewrite populated_nddata, Hnd.
  destruct (f nd) as [r nd']. reflexivity.
Qed.

(** What a single slice reads from a provider whose record at one
    position was replaced. *)
Lemma read_after_replace {A} (g : NDData -> A) i' k' k nd nd' self :
  PyList.norm_index (length (nddata self)) i' = Some k' ->
  nddata self !! k = Some nd ->
  let self' := with_nddata (<[k := nd']> (nddata self)) (populated self) in
  (x <~ Proxy._mapped_nddata_at {| Proxy._mapping := [i']; Proxy._single := true |} 0 ;;
   mret (g x)) self'
  = (index_error (g <$> (if decide (k' = k) then Some nd' else nddata self !! k')), self').
Proof.
  intros Hk' Hnd self'.
  assert (Hpop : populated self' = self') by reflexivity.
  assert (Hk'' : PyList.norm_index (length (nddata self')) i' = Some k').
  { unfold self'. rewrite nddata_with_nddata, length_insert. exact Hk'. }
  unfold mbind. rewrite (proxy_mapped_nddata i' k' self' Hk''), Hpop.
  unfold self' at 1. rewrite nddata_with_nddata.
  destruct (decide (k' = k)) as [->|Hne].
  - rewrite list_lookup_insert_eq by (apply lookup_lt_Some in Hnd; exact Hnd). reflexivity.
  - rewrite list_lookup_insert_ne by congruence.
    destruct (nddata self !! k'); reflexivity.
Qed.

Lemma read_before {A} (g : NDData -> A) i' k' self :
  PyList.norm_index (length (nddata self)) i' = Some k' ->
  (x <~ Proxy._mapped_nddata_at {| Proxy._mapping := [i']; Proxy._single := true |} 0 ;;
   mret (g x)) self
  = (index_error (g <$> nddata self !! k'), populated self).
Proof.
  intros Hk'. unfold mbind. rewrite (proxy_mapped_nddata i' k' self Hk').
  destruct (nddata self !! k'); reflexivity.
Qed.

(** X9 -- Assigning the mask through a single slice changes the mask
    of the one record the slice is bound to: every single slice of
    that extension reads the new mask afterwards, a slice of any other
    extension reads the mask it read before, and the data and the
    uncertainty of every extension, the headers and the free tables
    are as before. *)
Theorem mask_assignment_visible (self : FitsProvider) (i i' : Z) (k k' : nat)
    (m : option Array) :
  PyList.norm_index (length (nddata self)) i = Some k ->
  PyList.norm_index (length (nddata self)) i' = Some k' ->
  let px := {| Proxy._mapping := [i]; Proxy._single := true |} in
  let px' := {| Proxy._mapping := [i']; Proxy._single := true |} in
  let r := Proxy.set_mask px m self in
  r.1 = ok () /\
  _header r.2 = _header self /\ _tables r.2 = _tables self /\
  (Proxy.mask px' r.2).1 = (if decide (k' = k) then ok (One m) else (Proxy.mask px' self).1) /\
  (Proxy.data px' r.2).1 = (Proxy.data px' self).1 /\
  (Proxy.uncertainty px' r.2).1 = (Proxy.uncertainty px' self).1.
Proof.
  intros Hk Hk' px px' r.
  pose proof (norm_index_lt _ _ _ Hk) as Hlt.
  destruct (lookup_lt_is_Some_2 (nddata self) k Hlt) as [nd Hnd].
  assert (Hr : r = (ok (), with_nddata (<[k := Set_.mask m nd]> (nddata self))
                             (populated self))).
  { unfold r, Proxy.set_mask, px. cbn [negb Proxy._single].
    rewrite (on_target _ i k nd self Hk Hnd). reflexivity. }
  rewrite Hr. cbn [fst snd].
  split; [reflexivity|]. split; [apply populated_header|].
  split; [destruct self as [hs [nds|] ts ex]; reflexivity|].
  unfold Proxy.mask, Proxy.data, Proxy.uncertainty, px'. cbn [Proxy._single].
  rewrite !(read_after_replace _ i' k' k nd _ self Hk' Hnd), !(read_before _ i' k' self Hk').
  cbn [fst]. destruct (decide (k' = k)) as [->|Hne]; rewrite ?Hnd; repeat split; reflexivity.
Qed.

Lemma mask_assignment_visible_witness :
  let px := {| Proxy._mapping := [-1]; Proxy._single := true |} in
  let px' := {| Proxy._mapping := [2]; Proxy._single := true |} in
  let r := Proxy.set_mask px (Some [1%R]) Ex.three in
  r.1 = ok () /\ (Proxy.mask px' r.2).1 = ok (One (Some [1%R])).
Proof.
  intros px px' r.
  pose proof (mask_assignment_visible Ex.three (-1) 2 2 2 (Some [1%R]) eq_refl eq_refl) as H.
  cbv zeta in H. split; [exact (proj1 H) | exact (proj1 (proj2 (proj2 (proj2 H))))].
Defined.

(** Attaching a mask or a variance plane to the record at position
    [k]. *)
Lemma attach_plane ext data k nd self :
  ext = ExtArray data \/ (exists u, ext = ExtImageHDU u /\ hdu_data u = data) ->
  _nddata self = Some (nddata self) ->
  nddata self !! k = Some nd ->
  _append ext (Some "DQ") None (Some k) true self
  = (ok (RetArray data), with_nddata (<[k := Set_.mask (Some data) nd]> (nddata self)) self) /\
  _append ext (Some "VAR") None (Some k) true self
  = (ok (RetStdDev (new_variance_uncertainty_instance data)),
     with_nddata
       (<[k := Set_.uncertainty (Some (new_variance_uncertainty_instance data)) nd]>
          (nddata self)) self).
Proof.
  intros Hext Hpop Hnd.
  assert (Hlazy : _lazy_populate_object self = (ok (), self)).
  { unfold _lazy_populate_object. rewrite Hpop. reflexivity. }
  assert (Harr : forall name, name = "DQ" \/ name = "VAR" ->
            _append ext (Some name) None (Some k) true self
            = _append_array data (Some name) None (Some k) self).
  { intros name Hname. unfold _append, mbind. rewrite Hlazy.
    destruct Hext as [-> | (u & -> & <-)]; [reflexivity|].
    cbv beta iota delta [ok]. rewrite _append_imagehdu_array; [reflexivity|].
    right. right. eexists. reflexivity. }
  rewrite !Harr by auto.
  unfold _append_array, _append_array_open, on_record. simpl. rewrite Hnd.
  split; reflexivity.
Qed.

(** X10 -- Appending an array, or the data of an image unit, to a
    single slice under the name ['DQ'] does to the provider what
    assigning the array to the [mask] of the slice does, and
    appending it under ['VAR'] what assigning it to [variance]
    does. *)
Theorem attach_agrees_with_setters (self : FitsProvider) (i : Z) (k : nat) (ext : Ext)
    (data : Array) :
  PyList.norm_index (length (nddata self)) i = Some k ->
  ext = ExtArray data \/ (exists u, ext = ExtImageHDU u /\ hdu_data u = data) ->
  let px := {| Proxy._mapping := [i]; Proxy._single := true |} in
  (Proxy.append px ext (Some "DQ") self).2 = (Proxy.set_mask px (Some data) self).2 /\
  (Proxy.set_mask px (Some data) self).1 = ok () /\
  (Proxy.append px ext (Some "VAR") self).2 = (Proxy.set_variance px (Some data) self).2 /\
  (Proxy.set_variance px (Some data) self).1 = ok ().
Proof.
  intros Hk Hext px.
  pose proof (norm_index_lt _ _ _ Hk) as Hlt.
  destruct (lookup_lt_is_Some_2 (nddata self) k Hlt) as [nd Hnd].
  assert (Happ : forall name, Proxy.append px ext (Some name) self
                 = _append ext (Some name) None (Some k) true (populated self)).
  { intros name. unfold Proxy.append, px. cbn [negb Proxy._single]. unfold mbind at 1.
    rewrite (proxy_target i k self Hk). reflexivity. }
  destruct (attach_plane ext data k nd (populated self) Hext) as [Hdq Hvar].
  { rewrite populated_some, populated_nddata. reflexivity. }
  { rewrite populated_nddata. exact Hnd. }
  rewrite !Happ, Hdq, Hvar, populated_nddata.
  unfold Proxy.set_mask, Proxy.set_variance, px. cbn [negb Proxy._single].
  rewrite !(on_target _ i k nd self Hk Hnd). repeat split; reflexivity.
Qed.

Lemma attach_agrees_with_setters_witness :
  let px := {| Proxy._mapping := [0]; Proxy._single := true |} in
  (Proxy.append px (ExtArray [4%R]) (Some "DQ") Ex.three).2
  = (Proxy.set_mask px (Some [4%R]) Ex.three).2.
Proof.
  intros px.
  refine (proj1 (attach_agrees_with_setters Ex.three 0 0 (ExtArray [4%R]) [4%R] eq_refl _)).
  left. reflexivity.
Defined.



(** ** Attached payloads and free tables *)

Lemma odict_set_fresh {V} (d : list (string * V)) key v :
  key ∉ d.*1 -> odict_set d key v = d ++ [(key, v)].
Proof.
  induction d as [|[k w] d IH]; intros Hin; [reflexivity|].
  rewrite fmap_cons, not_elem_of_cons in Hin. destruct Hin as [Hne Hin]. simpl in Hne.
  simpl. destruct (decide (k = key)); [congruence|]. rewrite IH by exact Hin. reflexivity.
Qed.

Lemma odict_del_fresh {V} (d : list (string * V)) key :
  key ∉ d.*1 -> odict_del d key = d.
Proof.
  unfold odict_del. induction d as [|[k w] d IH]; intros Hin; [reflexivity|].
  rewrite fmap_cons, not_elem_of_cons in Hin. destruct Hin as [Hne Hin]. simpl in Hne.
  rewrite filter_cons_True by (simpl; congruence). rewrite IH by exact Hin. reflexivity.
Qed.

Lemma odict_del_snoc {V} (d : list (string * V)) key v :
  key ∉ d.*1 -> odict_del (d ++ [(key, v)]) key = d.
Proof.
  intros Hin. unfold odict_del. rewrite filter_app.
  change (filter _ d) with (odict_del d key). rewrite odict_del_fresh by exact Hin.
  rewrite filter_cons_False by (simpl; auto). apply app_nil_r.
Qed.

(** Attaching an array, or the data of an image unit, to the record
    at position [k] under a name of its own: the entry goes into
    [other], and no header is kept for it. *)
Lemma attach_other ext data name k nd others self :
  ext = ExtArray data \/ (exists u, ext = ExtImageHDU u /\ hdu_data u = data) ->
  name ∉ ["SCI"; "DQ"; "VAR"] ->
  _nddata self = Some (nddata self) ->
  nddata self !! k = Some nd ->
  meta_other nd = Some others ->
  _append ext (Some name) None (Some k) true self
  = (ok (RetArray data),
     with_nddata (<[k := Set_.other (Some (odict_set others name (PArray data))) nd]>
                    (nddata self)) self).
Proof.
  intros Hext Hname Hpop Hnd Hothers.
  assert (Hlazy : _lazy_populate_object self = (ok (), self)).
  { unfold _lazy_populate_object. rewrite Hpop. reflexivity. }
  assert (Harr : _append ext (Some name) None (Some k) true self
                 = _append_array data (Some name) None (Some k) self).
  { unfold _append, mbind. rewrite Hlazy.
    destruct Hext as [-> | (u & -> & <-)]; [reflexivity|].
    cbv beta iota delta [ok]. rewrite _append_imagehdu_array; [reflexivity|].
    right. right. eexists. reflexivity. }
  rewrite Harr. unfold _append_array, _append_array_open, default_extension.
  rewrite !not_elem_of_cons in Hname. destruct Hname as (Hsci & Hdq & Hvar & _).
  rewrite !bool_decide_eq_false_2 by assumption.
  unfold on_record. rewrite Hnd. unfold _add_to_other. rewrite Hothers. reflexivity.
Qed.

Lemma proxy_append_target i k ext name self :
  PyList.norm_index (length (nddata self)) i = Some k ->
  Proxy.append {| Proxy._mapping := [i]; Proxy._single := true |} ext (Some name) self
  = _append ext (Some name) None (Some k) true (populated self).
Proof.
  intros Hk. unfold Proxy.append. cbn [negb Proxy._single]. unfold mbind at 1.
  rewrite (proxy_target i k self Hk). reflexivity.
Qed.

(** X12 -- An array, or the data of an image unit, appended to a
    single slice under a capitalised name that the record does not
    use yet is added at the end of the auxiliary payloads of the
    record and is listed in [exposed]; deleting the attribute of that
    name from the slice gives back the provider as it was, and
    deleting it once more raises [AttributeError]. *)
Theorem attach_then_delattr (self : FitsProvider) (i : Z) (k : nat) (nd : NDData)
    (ext : Ext) (data : Array) (name : string) (others : list (string * Payload))
    (oh : gmap string Header) :
  PyList.norm_index (length (nddata self)) i = Some k ->
  nddata self !! k = Some nd ->
  ext = ExtArray data \/ (exists u, ext = ExtImageHDU u /\ hdu_data u = data) ->
  meta_other nd = Some others -> meta_other_header nd = Some oh ->
  name ∉ others.*1 -> oh !! name = None ->
  isupper name = true -> name ∉ ["SCI"; "DQ"; "VAR"] ->
  let px := {| Proxy._mapping := [i]; Proxy._single := true |} in
  let r := Proxy.append px ext (Some name) self in
  r.1 = ok (RetArray data) /\
  (exists nd', nddata r.2 !! k = Some nd' /\
     meta_other nd' = Some (others ++ [(name, PArray data)])) /\
  (exists ex, Proxy.exposed px r.2 = (ok ex, r.2) /\ name ∈ ex) /\
  Proxy.delattr px name r.2 = (ok (), populated self) /\
  exists msg, (Proxy.delattr px name (populated self)).1 = raise (AttributeError msg).
Proof.
  intros Hk Hnd Hext Hothers Hoh Hfresh Hnoh Hup Hname px r.
  pose proof (norm_index_lt _ _ _ Hk) as Hlt.
  set (nd' := Set_.other (Some (others ++ [(name, PArray data)])) nd).
  set (self' := with_nddata (<[k := nd']> (nddata self)) (populated self)).
  assert (Hr : r = (ok (RetArray data), self')).
  { unfold r, px. rewrite (proxy_append_target i k ext name self Hk).
    rewrite (attach_other ext data name k nd others (populated self) Hext Hname).
    - rewrite populated_nddata, odict_set_fresh by exact Hfresh. reflexivity.
    - rewrite populated_some, populated_nddata. reflexivity.
    - rewrite populated_nddata. exact Hnd.
    - exact Hothers. }
  rewrite Hr. cbn [fst snd].
  assert (Hpop : populated self' = self') by reflexivity.
  assert (Hnds : nddata self' = <[k := nd']> (nddata self)) by reflexivity.
  assert (Hk' : PyList.norm_index (length (nddata self')) i = Some k)
    by (rewrite Hnds, length_insert; exact Hk).
  assert (Hnd' : nddata self' !! k = Some nd')
    by (rewrite Hnds; apply list_lookup_insert_eq; exact Hlt).
  split; [reflexivity|]. split; [exists nd'; split; [exact Hnd' | reflexivity]|]. split.
  { unfold Proxy.exposed, mbind, px. rewrite (proxy_mapped_nddata i k self' Hk'), Hnd', Hpop.
    simpl. eexists. split; [reflexivity|].
    rewrite fmap_app, list_to_set_app.
    apply elem_of_union_r, elem_of_union_r, elem_of_list_to_set. left. }
  split.
  - unfold Proxy.delattr, px. rewrite Hup. cbn [negb Proxy._single].
    rewrite (on_target _ i k nd' self' Hk' Hnd'). unfold nd' at 1 2. simpl.
    rewrite Hoh. rewrite bool_decide_eq_true_2
      by (rewrite fmap_app; apply elem_of_app; right; simpl; left).
    cbn [fst snd]. f_equal. rewrite Hpop, Hnds, list_insert_insert_eq.
    rewrite odict_del_snoc by exact Hfresh. rewrite delete_id by exact Hnoh.
    replace (Set_.other_header _ _) with nd.
    + rewrite list_insert_id by exact Hnd. unfold self'.
      destruct self as [hs [nds|] ts ex]; reflexivity.
    + unfold nd'. destruct nd. simpl in *. subst. reflexivity.
  - assert (Hkp : PyList.norm_index (length (nddata (populated self))) i = Some k)
      by (rewrite populated_nddata; exact Hk).
    assert (Hndp : nddata (populated self) !! k = Some nd)
      by (rewrite populated_nddata; exact Hnd).
    unfold Proxy.delattr, px. rewrite Hup. cbn [negb Proxy._single].
    rewrite (on_target _ i k nd (populated self) Hkp Hndp). rewrite Hothers, Hoh.
    rewrite bool_decide_eq_false_2 by exact Hfresh. eexists. reflexivity.
Qed.

Lemma attach_then_delattr_witness :
  let px := {| Proxy._mapping := [1]; Proxy._single := true |} in
  let r := Proxy.append px (ExtArray [1%R]) (Some "OBJMASK") Ex.three in
  r.1 = ok (RetArray [1%R]) /\ Proxy.delattr px "OBJMASK" r.2 = (ok (), populated Ex.three).
Proof.
  intros px r.
  assert (H : "OBJMASK" ∉ ["SCI"; "DQ"; "VAR"]).
  { rewrite !not_elem_of_cons. repeat split; try discriminate. apply not_elem_of_nil. }
  pose proof (attach_then_delattr Ex.three 1 1 (Ex.record 2) (ExtArray [1%R]) [1%R]
                "OBJMASK" [] ∅ eq_refl eq_refl (or_introl eq_refl) eq_refl eq_refl
                (not_elem_of_nil _) eq_refl eq_refl H) as Hthm.
  cbv zeta in Hthm. split; [exact (proj1 Hthm) | exact (proj1 (proj2 (proj2 (proj2 Hthm))))].
Defined.



(** ** The map from versions to positions *)

(** The dictionary built from the versions [vs] in order. *)
Lemma extver_dict_spec (vs : list HVal) :
  let d := foldl (fun (d : gmap HVal nat) (vn : HVal * nat) => <[vn.1 := vn.2]> d) ∅
             (zip vs (seq 0 (length vs))) in
  forall v n, d !! v = Some n <->
    vs !! n = Some v /\ forall n', (n < n')%nat -> vs !! n' <> Some v.
Proof.
  induction vs as [|x vs IH] using rev_ind; intros d v n.
  - unfold d. simpl. rewrite lookup_empty. split; [discriminate | intros [H _]; discriminate].
  - assert (Hd : d = <[x := length vs]>
                       (foldl (fun (d : gmap HVal nat) (vn : HVal * nat) => <[vn.1 := vn.2]> d)
                          ∅ (zip vs (seq 0 (length vs))))).
    { unfold d. rewrite length_app. cbn [length]. rewrite Nat.add_1_r, seq_S. cbn [Nat.add].
      rewrite zip_with_app by (rewrite length_seq; reflexivity).
      rewrite foldl_app. reflexivity. }
    rewrite Hd. cbv zeta in IH. destruct (decide (x = v)) as [->|Hne].
    + rewrite lookup_insert_eq. split.
      * intros [= <-]. split; [apply list_lookup_middle; reflexivity|].
        intros n' Hn'. rewrite lookup_ge_None_2; [discriminate|].
        rewrite length_app. simpl. lia.
      * intros [Hn Hlast]. f_equal.
        destruct (decide (n = length vs)) as [->|Hneq]; [reflexivity|]. exfalso.
        assert (Hlt : (n < length (vs ++ [v]))%nat) by (apply lookup_lt_Some in Hn; exact Hn).
        rewrite length_app in Hlt. simpl in Hlt.
        apply (Hlast (length vs)); [lia|]. apply list_lookup_middle. reflexivity.
    + rewrite lookup_insert_ne by exact Hne. rewrite IH. split.
      * intros [Hn Hlast]. split; [apply lookup_app_l_Some; exact Hn|].
        intros n' Hn' Hv. apply lookup_app_Some in Hv as [Hv | [_ Hv]].
        -- exact (Hlast n' Hn' Hv).
        -- apply list_lookup_singleton_Some in Hv as [_ Hv]. congruence.
      * intros [Hn Hlast]. apply lookup_app_Some in Hn as [Hn | [_ Hn]].
        -- split; [exact Hn|]. intros n' Hn' Hv. apply (Hlast n' Hn').
           apply lookup_app_l_Some. exact Hv.
        -- apply list_lookup_singleton_Some in Hn as [_ Hn]. congruence.
Qed.

Lemma collect_vers (nds : list NDData) :
  Forall (fun nd => is_Some (meta_ver nd)) nds ->
  exists vs,
    collect (fun nd => match meta_ver nd with
                       | Some v => ok v
                       | None => raise (KeyError "ver")
                       end) nds = ok vs /\
    meta_ver <$> nds = Some <$> vs.
Proof.
  induction 1 as [|nd nds [v Hv] _ (vs & Hc & Hvs)]; [exists []; split; reflexivity|].
  exists (v :: vs). cbn [collect]. rewrite Hv, Hc, !fmap_cons, Hv, Hvs. split; reflexivity.
Qed.

(** X14 -- [extver_map] of a provider whose records all carry a
    version maps a version to the position of the last record that
    carries it and has no entry for any other value; when the
    versions are pairwise distinct it is thus the inverse of the map
    from positions to versions. *)
Theorem extver_map_last_position (self : FitsProvider) :
  Forall (fun nd => is_Some (meta_ver nd)) (nddata self) ->
  exists m, extver_map self = (ok m, populated self) /\
    (forall v n, m !! v = Some n <->
       (meta_ver <$> nddata self) !! n = Some (Some v) /\
       forall n', (n < n')%nat -> (meta_ver <$> nddata self) !! n' <> Some (Some v)) /\
    (NoDup (meta_ver <$> nddata self) ->
     forall v n, m !! v = Some n <-> (meta_ver <$> nddata self) !! n = Some (Some v)).
Proof.
  intros Hall. destruct (collect_vers (nddata self) Hall) as (vs & Hc & Hvs).
  unfold extver_map, mbind. rewrite lazy_eq, populated_nddata.
  unfold _extver_impl. rewrite Hc. cbn [rbind]. cbv beta iota delta [ok].
  eexists. split; [reflexivity|].
  assert (Hlook : forall n v, (meta_ver <$> nddata self) !! n = Some (Some v) <-> vs !! n = Some v).
  { intros n v. rewrite Hvs, list_lookup_fmap. destruct (vs !! n) as [w|]; simpl.
    - split; intros [= ->]; reflexivity.
    - split; discriminate. }
  assert (Hmain : forall v n,
            foldl (fun (d : gmap HVal nat) (vn : HVal * nat) => <[vn.1 := vn.2]> d) ∅
              (zip vs (seq 0 (length vs))) !! v = Some n <->
            (meta_ver <$> nddata self) !! n = Some (Some v) /\
            forall n', (n < n')%nat -> (meta_ver <$> nddata self) !! n' <> Some (Some v)).
  { intros v n. rewrite (extver_dict_spec vs v n), Hlook. split.
    - intros [Hn Hlast]. split; [exact Hn|]. intros n' Hn'. rewrite Hlook. apply Hlast, Hn'.
    - intros [Hn Hlast]. split; [exact Hn|]. intros n' Hn'. rewrite <- Hlook. apply Hlast, Hn'. }
  split; [exact Hmain|].
  intros Hnd v n. rewrite Hmain. split; [intros [Hn _]; exact Hn|].
  intros Hn. split; [exact Hn|]. intros n' Hn' Hv.
  pose proof (NoDup_lookup _ _ _ _ Hnd Hn Hv). lia.
Qed.

Lemma extver_map_last_position_witness :
  exists m, extver_map Ex.three = (ok m, populated Ex.three) /\
    m !! HInt 2 = Some 1%nat /\ m !! HInt 7 = None.
Proof.
  assert (Hall : Forall (fun nd => is_Some (meta_ver nd)) (nddata Ex.three))
    by (repeat constructor; eexists; reflexivity).
  destruct (extver_map_last_position Ex.three Hall) as (m & Hm & Hlast & _).
  exists m. split; [exact Hm|]. split.
  - apply Hlast. split; [reflexivity|].
    intros [|[|[|n']]] Hn'; try lia; discriminate.
  - destruct (m !! HInt 7) as [n|] eqn:Hn; [|reflexivity].
    apply Hlast in Hn as [Hn _]. destruct n as [|[|[|n]]]; discriminate.
Defined.

(** ** Appending at the top level *)



Lemma hdr_set_set h key v w : Hdr.set (Hdr.set h key v) key w = Hdr.set h key w.
Proof.
  induction h as [|[k x] h IH]; simpl.
  - destruct (decide (key = key)); [reflexivity | contradiction].
  - destruct (decide (k = key)) as [->|Hne]; simpl.
    + destruct (decide (key = key)); [reflexivity | contradiction].
    + destruct (decide (k = key)); [contradiction|]. rewrite IH. reflexivity.
Qed.

Lemma pylist_index_None `{EqDecision A} (l : list A) (x : A) :
  x ∉ l -> PyList.index l x = None.
Proof.
  induction l as [|y l IH]; intros Hin; [reflexivity|].
  rewrite not_elem_of_cons in Hin. destruct Hin as [Hne Hin]. simpl.
  destruct (decide (y = x)); [congruence|]. rewrite IH by exact Hin. reflexivity.
Qed.

Lemma insert_last {A} (l : list A) (x y : A) :
  <[pred (length (l ++ [x])) := y]> (l ++ [x]) = l ++ [y].
Proof.
  rewrite length_app. simpl. rewrite Nat.add_1_r. simpl.
  rewrite insert_app_r_alt by lia. rewrite Nat.sub_diag. reflexivity.
Qed.

(** [_append_nddata] with a record whose header is not in the header
    list yet: header and record go to the ends of their lists. *)
Lemma append_nddata_new self nd hd name v nd' :
  meta_header nd = Some hd ->
  default (HStr default_extension) (Hdr.get hd "EXTNAME") = HStr default_extension ->
  hd ∉ _header self ->
  _reset_ver self nd = ok (v, nd') ->
  _append_nddata nd name None true self
  = (ok (RetND nd'),
     with_nddata (nddata self ++ [nd'])
       (with_header (_header self ++ [default hd (meta_header nd')]) self)).
Proof.
  intros Hhd Hname Hnew Hreset. unfold _append_nddata. rewrite Hhd.
  destruct (decide _) as [_|Hno]; [|contradiction].
  rewrite (pylist_index_None _ hd Hnew).
  change (_reset_ver (with_header (_header self ++ [hd]) self) nd) with (_reset_ver self nd).
  rewrite Hreset. cbn [rbind ok snd]. cbv beta iota delta [ok rbind]. cbn [snd].
  change (_header (with_header (_header self ++ [hd]) self)) with (_header self ++ [hd]).
  rewrite insert_last. reflexivity.
Qed.

(** What [append] does with a bare array at the top level. *)
Lemma append_array_eq (self : FitsProvider) (vs : list Z) (data : Array)
    (header : option Header) (reset_ver : bool) :
  vers_of (nddata self) = ok vs ->
  let hd := Hdr.set (Hdr.set (default [] header) "EXTNAME" (HStr "SCI")) "EXTVER"
              (HInt (next_ver vs)) in
  hd ∉ _header self ->
  let nd := {| nd_data := data; nd_uncertainty := None; nd_mask := None;
               meta_header := Some hd; meta_ver := Some (HInt (next_ver vs));
               meta_name := None; meta_other := Some []; meta_other_header := Some ∅ |} in
  append (inr (ExtArray data)) None header reset_ver self
  = (ok (RetND nd),
     with_nddata (nddata self ++ [nd]) (with_header (_header self ++ [hd]) (populated self))).
Proof.
  intros Hvs hd Hnew nd.
  rewrite append_unfold. unfold _append, mbind. rewrite lazy_eq, populated_idem.
  unfold _append_array, _append_array_open. unfold default_extension.
  change (default "SCI" None) with "SCI".
  rewrite (bool_decide_eq_false_2 ("SCI" = "DQ" \/ "SCI" = "VAR"))
    by (intros [H|H]; discriminate H).
  unfold _append_imagehdu.
  rewrite (bool_decide_eq_false_2 (Some "SCI" = Some "DQ" \/ Some "SCI" = Some "VAR"))
    by (intros [H|H]; discriminate H).
  rewrite (bool_decide_eq_false_2 (is_Some (@None nat))) by (intros [x Hx]; discriminate Hx).
  cbn [orb].
  set (h1 := Hdr.set (default [] header) "EXTNAME" (HStr "SCI")).
  assert (Hvs' : vers_of (nddata (populated self)) = ok vs)
    by (rewrite populated_nddata; exact Hvs).
  assert (Hplane : _process_pixel_plane (populated self)
                     (PixHDU {| hdu_data := data; hdu_header := h1 |})
                     (Some "SCI") true true None = ok nd).
  { unfold _process_pixel_plane.
    cbv beta iota delta [ok rbind bare_nddata meta_header from_option Datatypes.id
                         hdu_header hdu_data].
    replace (Hdr.get h1 "EXTNAME") with (Some (HStr "SCI")) by (symmetry; apply hdr_get_set_eq).
    rewrite (bool_decide_eq_false_2 (Some (HStr "SCI") = None)) by discriminate.
    rewrite andb_false_r. cbn [orb meta_other].
    unfold _reset_ver. rewrite (get_max_ver_eq _ vs Hvs'). reflexivity. }
  rewrite Hplane. cbv beta iota delta [ok].
  assert (Hreset : _reset_ver (populated self) nd = ok (next_ver vs, nd)).
  { assert (Hidem : Hdr.set hd "EXTVER" (HInt (next_ver vs)) = hd)
      by (unfold hd; apply hdr_set_set).
    unfold _reset_ver. rewrite (get_max_ver_eq _ vs Hvs').
    cbv beta iota delta [ok rbind]. cbn [meta_header nd]. rewrite Hidem. reflexivity. }
  rewrite (append_nddata_new (populated self) nd hd (Some "SCI") (next_ver vs) nd eq_refl).
  - rewrite populated_nddata, populated_header. reflexivity.
  - unfold hd. rewrite hdr_get_set_ne by discriminate. unfold h1.
    rewrite hdr_get_set_eq. reflexivity.
  - rewrite populated_header. exact Hnew.
  - exact Hreset.
Qed.

(** X16 -- Appending a bare array to a provider adds one extension
    at the end: its data is the array, its version the highest
    version plus one (1 for the first), and its header the header
    given with the array (or an empty one) with [EXTNAME] set to
    ['SCI'] and [EXTVER] to the version; the [reset_ver] argument
    has no influence.  The last extension then reads back the array,
    and the other extensions and the free tables are as before. *)
Theorem append_array_effect (self : FitsProvider) (vs : list Z) (data : Array)
    (header : option Header) (reset_ver : bool) :
  vers_of (nddata self) = ok vs -> header_invariant self ->
  let ver := next_ver vs in
  let hd := Hdr.set (Hdr.set (default [] header) "EXTNAME" (HStr "SCI")) "EXTVER" (HInt ver) in
  hd ∉ _header self ->
  let r := append (inr (ExtArray data)) None header reset_ver self in
  let last := {| Proxy._mapping := [len self]; Proxy._single := true |} in
  exists nd,
    r.1 = ok (RetND nd) /\
    nd_data nd = data /\ nd_mask nd = None /\ nd_uncertainty nd = None /\
    meta_ver nd = Some (HInt ver) /\ meta_header nd = Some hd /\
    _header r.2 = _header self ++ [hd] /\ nddata r.2 = nddata self ++ [nd] /\
    _tables r.2 = _tables self /\
    getitem (IdxInt (-1)) r.2 = (ok last, r.2) /\
    Proxy.data last r.2 = (ok (One data), r.2) /\
    Proxy.header last r.2 = ok (take 1 (_header self) ++ [hd]).
Proof.
  intros Hvs Hinv ver hd Hnew r last.
  unfold r. rewrite (append_array_eq self vs data header reset_ver Hvs Hnew).
  fold ver. fold hd.
  set (nd := {| nd_data := data; nd_uncertainty := None; nd_mask := None;
                meta_header := Some hd; meta_ver := Some (HInt ver);
                meta_name := None; meta_other := Some []; meta_other_header := Some ∅ |}).
  set (self' := with_nddata _ _). cbn [fst snd].
  assert (Hhdr : _header self' = _header self ++ [hd])
    by reflexivity.
  assert (Hnds : nddata self' = nddata self ++ [nd]) by reflexivity.
  assert (Hpop : populated self' = self') by reflexivity.
  assert (Hlen : len self' = len self + 1)
    by (unfold len; rewrite Hhdr, length_app; simpl; lia).
  pose proof (len_invariant self Hinv) as Hl.
  exists nd. do 6 (split; [reflexivity|]).
  split; [exact Hhdr|]. split; [exact Hnds|].
  split; [destruct self as [hs [nds|] ts ex]; reflexivity|].
  assert (Hk : PyList.norm_index (length (nddata self')) (len self)
               = Some (length (nddata self))).
  { rewrite Hnds, length_app. simpl. unfold PyList.norm_index.
    destruct (decide _) as [_|Hno]; [|lia]. f_equal. lia. }
  split; [|split].
  - rewrite getitem_unfold, Hpop, Hlen. unfold normalize_indices. simpl.
    destruct (decide (-1 >= 0)); [lia|].
    rewrite bool_decide_eq_false_2 by lia. unfold last. do 4 f_equal. lia.
  - unfold Proxy.data, last. cbn [Proxy._single]. unfold mbind.
    rewrite (proxy_mapped_nddata _ _ self' Hk), Hpop, Hnds.
    rewrite list_lookup_middle by reflexivity. reflexivity.
  - unfold Proxy.header, last. cbn [Proxy._mapping fmap list_fmap collect]. rewrite Hhdr.
    unfold header_invariant in Hinv.
    rewrite !pylist_getitem_in_range by (rewrite length_app; simpl; lia).
    change (Z.to_nat 0) with 0%nat.
    replace (Z.to_nat (len self + 1)) with (length (_header self)) by lia.
    rewrite (list_lookup_middle (_header self) [] hd (length (_header self)) eq_refl).
    destruct (_header self) as [|phu hs] eqn:Hh; [simpl in Hinv; lia|]. reflexivity.
Qed.

Lemma append_array_effect_witness :
  let r := append (inr (ExtArray [5%R])) None None false Ex.three in
  exists nd, r.1 = ok (RetND nd) /\ nd_data nd = [5%R] /\ meta_ver nd = Some (HInt 4).
Proof.
  intros r.
  assert (Hnew : Hdr.set (Hdr.set [] "EXTNAME" (HStr "SCI")) "EXTVER" (HInt 4)
                 ∉ _header Ex.three).
  { cbn. rewrite !not_elem_of_cons. repeat split; try discriminate. apply not_elem_of_nil. }
  destruct (append_array_effect Ex.three [1; 2; 3] [5%R] None false eq_refl eq_refl Hnew)
    as (nd & Hr & Hd & _ & _ & Hv & _).
  exists nd. split; [exact Hr|]. split; [exact Hd | exact Hv].
Defined.

(** ** Writing attached planes *)

Lemma collect_app {A B} (f : A -> result B) (l1 l2 : list A) :
  collect f (l1 ++ l2)
  = (ys1 <-- collect f l1 ;; ys2 <-- collect f l2 ;; ok (ys1 ++ ys2)).
Proof.
  induction l1 as [|x l1 IH]; simpl.
  - destruct (collect f l2); reflexivity.
  - destruct (f x) as [e|y]; [reflexivity|]. simpl. rewrite IH.
    destruct (collect f l1) as [e|ys1]; [reflexivity|]. simpl.
    destruct (collect f l2); reflexivity.
Qed.

(** X17 -- An array, or the data of an image unit, appended to a
    single slice under a new name of its own is written by the
    serialiser as one more image unit after the units that the record
    gave before: the unit holds the array under the header of the
    record with [EXTNAME] set to the name.  No header is recorded for
    the attached plane, so the header of an attached image unit is not
    written back. *)
Theorem attached_array_serialised (self : FitsProvider) (i : Z) (k : nat) (nd : NDData)
    (ext : Ext) (data : Array) (name : string) (others : list (string * Payload))
    (oh : gmap string Header) (header : Header) (block : list HDU) :
  PyList.norm_index (length (nddata self)) i = Some k ->
  nddata self !! k = Some nd ->
  ext = ExtArray data \/ (exists u, ext = ExtImageHDU u /\ hdu_data u = data) ->
  name ∉ ["SCI"; "DQ"; "VAR"] ->
  meta_other nd = Some others -> name ∉ others.*1 ->
  meta_other_header nd = Some oh -> oh !! name = None ->
  meta_header nd = Some header ->
  ext_to_hdus nd = ok block ->
  let px := {| Proxy._mapping := [i]; Proxy._single := true |} in
  let r := Proxy.append px ext (Some name) self in
  r.1 = ok (RetArray data) /\
  exists nd',
    nddata r.2 !! k = Some nd' /\
    meta_other_header nd' = Some oh /\
    ext_to_hdus nd' = ok (block ++ [Image (new_imagehdu data header (Some name))]).
Proof.
  intros Hk Hnd Hext Hname Hothers Hfresh Hoh Hnoh Hheader Hblock px r.
  pose proof (norm_index_lt _ _ _ Hk) as Hlt.
  set (nd' := Set_.other (Some (others ++ [(name, PArray data)])) nd).
  assert (Hr : r = (ok (RetArray data),
                    with_nddata (<[k := nd']> (nddata self)) (populated self))).
  { unfold r, px. rewrite (proxy_append_target i k ext name self Hk).
    rewrite (attach_other ext data name k nd others (populated self) Hext Hname).
    - rewrite populated_nddata, odict_set_fresh by exact Hfresh. reflexivity.
    - rewrite populated_some, populated_nddata. reflexivity.
    - rewrite populated_nddata. exact Hnd.
    - exact Hothers. }
  rewrite Hr. cbn [fst snd]. split; [reflexivity|]. exists nd'.
  split; [rewrite nddata_with_nddata; apply list_lookup_insert_eq; exact Hlt|].
  split; [exact Hoh|].
  unfold ext_to_hdus in *.
  change (meta_header nd') with (meta_header nd). change (meta_ver nd') with (meta_ver nd).
  change (nd_data nd') with (nd_data nd).
  change (nd_uncertainty nd') with (nd_uncertainty nd). change (nd_mask nd') with (nd_mask nd).
  change (meta_other nd') with (Some (others ++ [(name, PArray data)])).
  rewrite Hheader in *. rewrite Hothers in Hblock.
  destruct (meta_ver nd) as [v|]; [|discriminate].
  cbn [default from_option Datatypes.id] in *.
  assert (Hsame : forall l, collect (fun no : string * Payload =>
                                       other_to_hdu nd' header no.1 no.2) l
                            = collect (fun no => other_to_hdu nd header no.1 no.2) l).
  { intros l. induction l as [|[n p] l IH]; [reflexivity|]. cbn [collect]. rewrite IH.
    destruct p; reflexivity. }
  rewrite Hsame, collect_app.
  destruct (collect _ others) as [e|os]; [discriminate|].
  cbn [rbind collect fst snd other_to_hdu]. rewrite Hoh, Hnoh.
  cbv beta iota delta [ok rbind] in *. injection Hblock as <-.
  f_equal. cbn [app]. rewrite <- !app_assoc. reflexivity.
Qed.

Lemma attached_array_serialised_witness :
  let px := {| Proxy._mapping := [0]; Proxy._single := true |} in
  let unit := {| hdu_data := [7%R]; hdu_header := [("BUNIT", HStr "adu")] |} in
  let r := Proxy.append px (ExtImageHDU unit) (Some "OBJMASK") Ex.three in
  exists nd',
    nddata r.2 !! 0%nat = Some nd' /\
    ext_to_hdus nd'
    = ok [Image (new_imagehdu [] (Ex.sci 1) None);
          Image (new_imagehdu [7%R] (Ex.sci 1) (Some "OBJMASK"))].
Proof.
  intros px unit r.
  assert (H : "OBJMASK" ∉ ["SCI"; "DQ"; "VAR"]).
  { rewrite !not_elem_of_cons. repeat split; try discriminate. apply not_elem_of_nil. }
  destruct (attached_array_serialised Ex.three 0 0 (Ex.record 1) (ExtImageHDU unit) [7%R]
              "OBJMASK" [] ∅ (Ex.sci 1) [Image (new_imagehdu [] (Ex.sci 1) None)]
              eq_refl eq_refl (or_intror (ex_intro _ unit (conj eq_refl eq_refl))) H
              eq_refl (not_elem_of_nil _) eq_refl eq_refl eq_refl eq_refl)
    as (_ & nd' & Hnd' & _ & Hw).
  exists nd'. split; [exact Hnd' | exact Hw].
Defined.

(** ** Deleting an extension *)

(** X18 -- Deleting the extension at an index from 0 to [len - 1]
    removes the record at the index and the header stored one place
    after it: the provider is one extension shorter and keeps the
    invariant, the primary header and the extensions before the index
    stay where they were, and every later extension moves one place
    down together with its header. *)
Theorem delitem_removes_extension (self : FitsProvider) (idx : Z) :
  header_invariant self -> 0 <= idx < len self ->
  let r := delitem idx self in
  let shift (j : nat) := if decide (j < Z.to_nat idx)%nat then j else S j in
  r.1 = ok () /\
  header_invariant r.2 /\ len r.2 = len self - 1 /\
  _tables r.2 = _tables self /\
  _header r.2 !! 0%nat = _header self !! 0%nat /\
  forall j : nat,
    nddata r.2 !! j = nddata self !! shift j /\
    _header r.2 !! S j = _header self !! S (shift j).
Proof.
  intros Hinv Hidx r shift. unfold r. rewrite (delitem_nonneg idx self Hinv Hidx).
  cbn [fst snd]. rewrite nddata_with_nddata.
  change (_header (with_nddata _ (with_header ?hs _))) with hs.
  unfold header_invariant in *. unfold len in *.
  assert (Hlt : (Z.to_nat idx < length (nddata self))%nat) by lia.
  split; [reflexivity|]. split.
  { rewrite nddata_with_nddata.
    change (_header (with_nddata _ (with_header ?hs _))) with hs.
    rewrite !length_delete by (apply lookup_lt_is_Some; lia). lia. }
  split.
  { change (_header (with_nddata _ (with_header ?hs _))) with hs.
    rewrite length_delete by (apply lookup_lt_is_Some; lia). lia. }
  split; [destruct self as [hs [nds|] ts ex]; reflexivity|].
  split; [apply list_lookup_delete_lt; lia|].
  intros j. unfold shift. destruct (decide (j < Z.to_nat idx)%nat) as [Hj|Hj].
  - rewrite !list_lookup_delete_lt by lia. split; reflexivity.
  - rewrite !list_lookup_delete_ge by lia. split; reflexivity.
Qed.

Lemma delitem_removes_extension_witness :
  let r := delitem 1 Ex.three in
  r.1 = ok () /\ len r.2 = 2 /\ nddata r.2 !! 1%nat = Some (Ex.record 3) /\
  _header r.2 !! 2%nat = Some (Ex.sci 3).
Proof.
  intros r.
  pose proof (delitem_removes_extension Ex.three 1 eq_refl ltac:(unfold len; simpl; lia)) as H.
  cbv zeta in H. destruct H as (Hr & _ & Hlen & _ & _ & Hj).
  split; [exact Hr|]. split; [exact Hlen|]. exact (Hj 1%nat).
Defined.

(** ** Headers and records stay aligned *)













(** ** Providers stay writable *)






















(** ** Tables attached to a record *)





(** ** The views of a provider *)





(** ** The versions of the payloads of an appended slice *)

Lemma payload_complete_dom (oh oh' : gmap string Header) entry :
  dom oh' = dom oh -> payload_complete oh entry -> payload_complete oh' entry.
Proof.
  intros Hdom. unfold payload_complete, payload_header.
  assert (H : is_Some (oh' !! entry.1) <-> is_Some (oh !! entry.1)).
  { rewrite <- !elem_of_dom, Hdom. reflexivity. }
  destruct (oh !! entry.1) as [h|] eqn:Hh, (oh' !! entry.1) as [h'|] eqn:Hh';
    destruct entry.2; auto;
    try solve [intros _; eexists; reflexivity];
    try solve [destruct H as [H1 H2];
               first [destruct H1 as [x Hx]; [eexists; reflexivity | discriminate Hx]
                     | destruct H2 as [x Hx]; [eexists; reflexivity | discriminate Hx]]].
Qed.

(** The loop of [_reset_ver] over payloads that have their headers. *)
Lemma reset_other_spec ver (others : list (string * Payload)) : forall oh,
  Forall (payload_complete oh) others ->
  (reset_other ver others oh).1.*1 = others.*1 /\
  dom (reset_other ver others oh).2 = dom oh /\
  (forall n, n ∉ others.*1 -> (reset_other ver others oh).2 !! n = oh !! n) /\
  (forall n h, n ∈ others.*1 -> (reset_other ver others oh).2 !! n = Some h ->
     Hdr.get h "EXTVER" = Some (HInt ver)) /\
  Forall (fun entry => oh !! entry.1 = None ->
            forall h, own_header entry.2 = Some h -> Hdr.get h "EXTVER" = Some (HInt ver))
    (reset_other ver others oh).1.
Proof.
  induction others as [|[n p] rest IH]; intros oh Hall.
  { simpl. split; [reflexivity|]. split; [reflexivity|]. split; [reflexivity|].
    split; [|constructor]. intros n h Hn. apply elem_of_nil in Hn. contradiction. }
  apply Forall_cons in Hall as [Hp Hall]. cbn [reset_other].
  destruct (oh !! n) as [h0|] eqn:Hn.
  - set (oh1 := <[n := Hdr.set h0 "EXTVER" (HInt ver)]> oh).
    assert (Hdom : dom oh1 = dom oh).
    { unfold oh1. apply dom_insert_lookup_L. rewrite Hn. eexists; reflexivity. }
    assert (Hall1 : Forall (payload_complete oh1) rest).
    { eapply Forall_impl; [exact Hall|]. intros e. apply payload_complete_dom. exact Hdom. }
    destruct (IH oh1 Hall1) as (H1 & H2 & H3 & H4 & H5).
    destruct (reset_other ver rest oh1) as [rest' oh'] eqn:Hr. cbn [fst snd] in *.
    rewrite !fmap_cons. cbn [fst].
    split; [f_equal; exact H1|]. split; [rewrite H2; exact Hdom|]. split; [|split].
    + intros n' Hn'. apply not_elem_of_cons in Hn' as [Hne Hn'].
      rewrite (H3 n' Hn'). unfold oh1. apply lookup_insert_ne. congruence.
    + intros n' h Hn' Hh. destruct (decide (n' ∈ rest.*1)) as [Hin|Hout].
      * exact (H4 n' h Hin Hh).
      * apply elem_of_cons in Hn' as [->|Hin]; [|contradiction].
        rewrite (H3 n Hout) in Hh. unfold oh1 in Hh. rewrite lookup_insert_eq in Hh.
        injection Hh as <-. apply hdr_get_set_eq.
    + constructor.
      * cbn [fst]. rewrite Hn. discriminate.
      * eapply Forall_impl; [exact H5|]. intros e He Hnone h Hown.
        refine (He _ h Hown). unfold oh1. rewrite lookup_insert_ne; [exact Hnone|].
        intros Heq. rewrite Heq in Hn. congruence.
  - assert (Hstep : forall p',
              (forall h, own_header p' = Some h -> Hdr.get h "EXTVER" = Some (HInt ver)) ->
              let r := ((n, p') :: (reset_other ver rest oh).1, (reset_other ver rest oh).2) in
              r.1.*1 = ((n, p) :: rest).*1 /\ dom r.2 = dom oh /\
              (forall n', n' ∉ ((n, p) :: rest).*1 -> r.2 !! n' = oh !! n') /\
              (forall n' h, n' ∈ ((n, p) :: rest).*1 -> r.2 !! n' = Some h ->
                 Hdr.get h "EXTVER" = Some (HInt ver)) /\
              Forall (fun entry => oh !! entry.1 = None ->
                        forall h, own_header entry.2 = Some h ->
                          Hdr.get h "EXTVER" = Some (HInt ver)) r.1).
    { intros p' Hp' r. destruct (IH oh Hall) as (H1 & H2 & H3 & H4 & H5).
      unfold r. cbn [fst snd]. rewrite !fmap_cons. cbn [fst].
      split; [f_equal; exact H1|]. split; [exact H2|]. split; [|split].
      - intros n' Hn'. apply not_elem_of_cons in Hn' as [_ Hn']. exact (H3 n' Hn').
      - intros n' h Hn' Hh. destruct (decide (n' ∈ rest.*1)) as [Hin|Hout].
        + exact (H4 n' h Hin Hh).
        + apply elem_of_cons in Hn' as [->|Hin]; [|contradiction].
          rewrite (H3 n Hout), Hn in Hh. discriminate.
      - constructor; [|exact H5]. intros _. exact Hp'. }
    unfold payload_complete, payload_header in Hp. cbn [fst snd] in Hp. rewrite Hn in Hp.
    destruct p as [t|a|d [h|]|o]; cbn [own_header] in Hp.
    + destruct (tbl_meta_header t) as [th|] eqn:Ht; [|destruct Hp; discriminate].
      specialize (Hstep (PTable {| tbl_columns := tbl_columns t;
                                   tbl_meta_header := Some (Hdr.set th "EXTVER" (HInt ver)) |})).
      destruct (reset_other ver rest oh) as [rest' oh'].
      apply Hstep. cbn. intros h [= <-]. apply hdr_get_set_eq.
    + specialize (Hstep (PArray a)). destruct (reset_other ver rest oh) as [rest' oh'].
      apply Hstep. discriminate.
    + specialize (Hstep (PNDData d (Some (Hdr.set h "EXTVER" (HInt ver))))).
      destruct (reset_other ver rest oh) as [rest' oh'].
      apply Hstep. cbn. intros h' [= <-]. apply hdr_get_set_eq.
    + destruct Hp; discriminate.
    + specialize (Hstep (PObject o)). destruct (reset_other ver rest oh) as [rest' oh'].
      apply Hstep. discriminate.
Qed.

(** X23 -- Appending the single slice of another object puts a copy
    of its record, with its pixels, mask and uncertainty, at the end
    and renumbers all of it: the record, its header and the header of
    every auxiliary payload (the one recorded under the name of the
    payload, or else the one a table or a nested record keeps itself)
    get the next free version, while the names and the order of the
    payloads stay.  It holds when no table or nested record among the
    payloads lacks a header; the header of the record is a new one and
    names no other extension than [SCI]. *)
Theorem appended_slice_renumbered (self : FitsProvider) (vs : list Z) (nd : NDData)
    (header : option Header) (hd : Header) (others : list (string * Payload))
    (oh : gmap string Header) (name : option string) (reset_ver : bool) :
  vers_of (nddata self) = ok vs ->
  match header with Some h => Some h | None => meta_header nd end = Some hd ->
  default (HStr default_extension) (Hdr.get hd "EXTNAME") = HStr default_extension ->
  hd ∉ _header self ->
  meta_other nd = Some others -> meta_other_header nd = Some oh ->
  Forall (payload_complete oh) others ->
  let v := next_ver vs in
  exists nd' others' oh',
    append (inr (ExtAstroData (Some nd))) name header reset_ver self
    = (ok (RetND nd'),
       with_nddata (nddata self ++ [nd'])
         (with_header (_header self ++ [Hdr.set hd "EXTVER" (HInt v)]) (populated self))) /\
    nd_data nd' = nd_data nd /\ nd_mask nd' = nd_mask nd /\
    nd_uncertainty nd' = nd_uncertainty nd /\
    meta_ver nd' = Some (HInt v) /\
    meta_header nd' = Some (Hdr.set hd "EXTVER" (HInt v)) /\
    meta_other nd' = Some others' /\ meta_other_header nd' = Some oh' /\
    others'.*1 = others.*1 /\ dom oh' = dom oh /\
    Forall (fun entry => forall h, payload_header oh' entry = Some h ->
              Hdr.get h "EXTVER" = Some (HInt v)) others'.
Proof.
  intros Hvs Hhd Hname Hnew Hothers Hoh Hall v.
  set (nd0 := match header with Some h => Set_.header (Some h) nd | None => nd end).
  assert (Hhd0 : meta_header nd0 = Some hd) by (unfold nd0; destruct header; exact Hhd).
  assert (Ho0 : meta_other nd0 = Some others) by (unfold nd0; destruct header; exact Hothers).
  assert (Hoh0 : meta_other_header nd0 = Some oh) by (unfold nd0; destruct header; exact Hoh).
  assert (Hd0 : nd_data nd0 = nd_data nd /\ nd_mask nd0 = nd_mask nd /\
                nd_uncertainty nd0 = nd_uncertainty nd)
    by (unfold nd0; destruct header; repeat split).
  destruct (reset_other_spec v others oh Hall) as (H1 & H2 & H3 & H4 & H5).
  destruct (reset_other v others oh) as [others' oh'] eqn:Hr. cbn [fst snd] in *.
  set (nd' := Set_.other (Some others') (Set_.other_header (Some oh')
                (Set_.ver (Some (HInt v))
                   (Set_.header (Some (Hdr.set hd "EXTVER" (HInt v))) nd0)))).
  assert (Hreset : _reset_ver (populated self) nd0 = ok (v, nd')).
  { unfold _reset_ver. rewrite (get_max_ver_eq _ vs) by (rewrite populated_nddata; exact Hvs).
    cbv beta iota delta [ok rbind]. rewrite Hhd0.
    change (meta_other_header (Set_.ver _ (Set_.header _ nd0))) with (meta_other_header nd0).
    change (meta_other (Set_.ver _ (Set_.header _ nd0))) with (meta_other nd0).
    rewrite Hoh0, Ho0. fold v. rewrite Hr. reflexivity. }
  exists nd', others', oh'. split.
  { rewrite append_unfold. unfold _append, mbind. rewrite lazy_eq, populated_idem.
    unfold _append_astrodata. cbn [bool_decide decide_rel].
    rewrite bool_decide_eq_false_2 by (intros [x Hx]; discriminate Hx).
    fold nd0.
    rewrite (append_nddata_new (populated self) nd0 hd None v nd' Hhd0 Hname)
      by (try rewrite populated_header; assumption).
    rewrite populated_nddata, populated_header. reflexivity. }
  destruct Hd0 as (Hd & Hm & Hu).
  split; [exact Hd|]. split; [exact Hm|]. split; [exact Hu|].
  split; [reflexivity|]. split; [reflexivity|]. split; [reflexivity|]. split; [reflexivity|].
  split; [exact H1|]. split; [exact H2|].
  apply Forall_forall. intros e He h. unfold payload_header.
  assert (Hin : e.1 ∈ others.*1).
  { rewrite <- H1. apply (list_elem_of_fmap_2 fst). exact He. }
  destruct (oh' !! e.1) as [h0|] eqn:Hl.
  - intros [= <-]. exact (H4 e.1 h0 Hin Hl).
  - intros Hown. rewrite Forall_forall in H5. apply (H5 e He); [|exact Hown].
    apply not_elem_of_dom. rewrite <- H2. apply not_elem_of_dom. exact Hl.
Qed.

Lemma appended_slice_renumbered_witness :
  exists nd' others' oh',
    (append (inr (ExtAstroData (Some Ex.full_record))) None (Some (Ex.sci 9)) true Ex.three).1
    = ok (RetND nd') /\
    meta_ver nd' = Some (HInt 4) /\
    meta_other nd' = Some others' /\ meta_other_header nd' = Some oh' /\
    Forall (fun entry => forall h, payload_header oh' entry = Some h ->
              Hdr.get h "EXTVER" = Some (HInt 4)) others'.
Proof.
  assert (Hnew : Ex.sci 9 ∉ _header Ex.three).
  { intros H. repeat (apply elem_of_cons in H as [H|H]; [discriminate H|]).
    apply elem_of_nil in H. exact H. }
  assert (Hall : Forall (payload_complete ∅)
                   [("OBJMASK", PArray [1%R]); ("OBJCAT", PTable (Ex.catalogue "OBJCAT"))]).
  { constructor; [exact I|]. constructor; [|constructor]. eexists. reflexivity. }
  destruct (appended_slice_renumbered Ex.three [1; 2; 3] Ex.full_record (Some (Ex.sci 9))
              (Ex.sci 9) _ ∅ None true eq_refl eq_refl eq_refl Hnew eq_refl eq_refl Hall)
    as (nd' & others' & oh' & Happ & _ & _ & _ & Hv & _ & Ho & Hh & _ & _ & Hall').
  exists nd', others', oh'. rewrite Happ.
  split; [reflexivity|]. split; [exact Hv|]. split; [exact Ho|]. split; [exact Hh | exact Hall'].
Defined.

(** ** Loading what the loader made *)

Lemma sorted_by_fixed {A} (le : A -> A -> bool) (l : list A) :
  Sorted (fun a b => le a b = true) l -> sorted_by le l = l.
Proof.
  induction 1 as [|x l Hs IH Hhd]; [reflexivity|].
  unfold sorted_by in *. cbn [foldr]. rewrite IH.
  destruct Hhd as [|y l' Hxy]; simpl; [reflexivity|]. rewrite Hxy. reflexivity.
Qed.

(** Sorting a second time changes nothing. *)
Lemma sorted_units_idem l out : sorted_units l = ok out -> sorted_units out = ok out.
Proof.
  unfold sorted_units.
  destruct (collect fits_ext_comp_key l) as [e|keys] eqn:Hk; [discriminate|].
  cbn [rbind]. intros [= <-].
  set (le := fun a b : Z * string * HDU => key_leb a.1 b.1).
  set (s := sorted_by le (zip keys l)).
  assert (Hkeys : collect fits_ext_comp_key s.*2 = ok s.*1).
  { apply collect_ok_Forall2.
    apply (Forall_pairs_Forall2 (fun u k => fits_ext_comp_key u = ok k)).
    unfold s. rewrite (sorted_by_perm le (zip keys l)).
    apply (Forall2_zip_pairs (fun u k => fits_ext_comp_key u = ok k)).
    apply collect_ok_Forall2. exact Hk. }
  rewrite Hkeys. cbv beta iota delta [rbind ok]. rewrite zip_fst_snd. fold le.
  rewrite (sorted_by_fixed le s); [reflexivity|].
  apply sorted_by_sorted. intros a b. apply key_leb_total.
Qed.

Lemma completed_length l : forall c, length (Normal.completed c l) = length l.
Proof.
  induction l as [|[p|iu|b] l IH]; intros c; simpl; [reflexivity| | |];
    try (rewrite IH; reflexivity).
  destruct (Normal.pending (Image iu)); simpl; rewrite IH; reflexivity.
Qed.

(** Completion leaves the units that are not image units. *)
Lemma completed_others (P : HDU -> Prop) l : forall c,
  Forall (fun u => Normal.is_image u = false -> P u) l ->
  Forall (fun u => Normal.is_image u = false -> P u) (Normal.completed c l).
Proof.
  induction l as [|[p|iu|b] l IH]; intros c Hall; simpl; [constructor| | |];
    apply Forall_cons in Hall as [Hu Hall].
  - constructor; [exact Hu | apply IH; exact Hall].
  - destruct (Normal.pending (Image iu)); (constructor; [discriminate | apply IH; exact Hall]).
  - constructor; [exact Hu | apply IH; exact Hall].
Qed.

Lemma filter_recognized l :
  Forall (fun u => FitsLoader.recognized u = true) l ->
  filter (fun u => Is_true (FitsLoader.recognized u)) l = l.
Proof.
  induction 1 as [|u l Hu _ IH]; [reflexivity|].
  rewrite filter_cons_True by (rewrite Hu; exact I). rewrite IH. reflexivity.
Qed.

Lemma second_loop_recognized l c :
  Forall (fun u => FitsLoader.recognized u = true) l -> FitsLoader.second_loop l c = [].
Proof.
  induction 1 as [|u l Hu _ IH]; [reflexivity|].
  cbn [FitsLoader.second_loop]. rewrite Hu. exact IH.
Qed.

(** What the loader returns for units of well-typed cards whose
    tables have names and versions. *)
Lemma prepared_recognized hdulist out :
  Forall Normal.well_typed hdulist ->
  Forall (fun u => Normal.is_image u = false -> FitsLoader.recognized u = true) hdulist ->
  FitsLoader._prepare_hdulist hdulist = ok out ->
  (1 < length out)%nat /\ Forall Normal.well_typed out /\
  Forall (fun u => FitsLoader.recognized u = true) out.
Proof.
  intros Hwt Htab Hout. destruct (decide (1 < length hdulist)%nat) as [Hlen|Hlen].
  - rewrite (prepare_many _ Hlen) in Hout.
    destruct (FitsLoader.first_loop hdulist 0) as [e|r] eqn:Hr; [discriminate|].
    cbn [rbind] in Hout.
    destruct (first_loop_spec _ _ _ Hr) as [H1 H2].
    destruct (sorted_units_spec _ _ Hout) as (Hperm & _).
    assert (Hcompl : out ≡ₚ Normal.completed (Normal.highest hdulist) hdulist).
    { rewrite Hperm, H1, H2. apply second_loop_completed. }
    assert (Hc : 0 <= Normal.highest hdulist) by apply py_max_ge.
    destruct (completed_facts hdulist _ Hc) as [Hwt' Himg].
    split; [|split].
    + rewrite Hcompl, completed_length. exact Hlen.
    + rewrite Hcompl. apply Hwt'. exact Hwt.
    + rewrite Hcompl.
      pose proof (completed_others (fun u => FitsLoader.recognized u = true) hdulist
                    (Normal.highest hdulist) Htab) as Hoth.
      rewrite Forall_forall in Himg, Hoth. apply Forall_forall. intros u Hu.
      destruct (Normal.is_image u) eqn:Hi.
      * rewrite recognized_eq, (Himg u Hu Hi). reflexivity.
      * exact (Hoth u Hu Hi).
  - destruct hdulist as [|u [|w l]]; [discriminate Hout| |simpl in Hlen; lia].
    rewrite prepare_single in Hout. injection Hout as <-.
    apply Forall_cons in Hwt as [Hu _].
    assert (Hv : forall (h : Header) key, Hdr.get (Hdr.set (Hdr.set h "EXTNAME"
                   (HStr default_extension)) "EXTVER" (HInt 1)) key
                 = if decide (key = "EXTVER") then Some (HInt 1)
                   else if decide (key = "EXTNAME") then Some (HStr default_extension)
                   else Hdr.get h key).
    { intros h key. destruct (decide (key = "EXTVER")) as [->|Hne];
        [apply hdr_get_set_eq|].
      rewrite hdr_get_set_ne by congruence.
      destruct (decide (key = "EXTNAME")) as [->|Hne']; [apply hdr_get_set_eq|].
      apply hdr_get_set_ne. congruence. }
    split; [simpl; lia|]. split.
    + constructor; [exact Hu|]. constructor; [|constructor].
      split; cbn [hdu_header_of hdu_header]; intros v; rewrite Hv; cbn;
        intros [= <-]; eexists; reflexivity.
    + constructor; [rewrite recognized_eq; apply orb_true_r|]. constructor; [|constructor].
      unfold FitsLoader.recognized. cbn [hdu_header_of hdu_header]. rewrite !Hv. reflexivity.
Qed.

(** X24 -- The loader leaves alone what it made: given units whose
    name and version cards have the types of FITS and whose table
    units all come with a name and a version, the list it returns is
    returned unchanged when it is prepared again.  (With a table that
    lacks one of the two the second run may move that table behind an
    image unit of the same key.) *)
Theorem prepare_hdulist_idempotent (hdulist out : list HDU) :
  Forall Normal.well_typed hdulist ->
  Forall (fun u => Normal.is_image u = false -> FitsLoader.recognized u = true) hdulist ->
  FitsLoader._prepare_hdulist hdulist = ok out ->
  FitsLoader._prepare_hdulist out = ok out.
Proof.
  intros Hwt Htab Hout.
  destruct (prepared_recognized hdulist out Hwt Htab Hout) as (Hlen & Hwt' & Hrec).
  rewrite (prepare_many _ Hlen).
  destruct (first_loop_total out 0 Hwt') as [r Hr]. rewrite Hr.
  cbv beta iota delta [rbind ok].
  destruct (first_loop_spec _ _ _ Hr) as [H1 _].
  rewrite H1, (filter_recognized out Hrec), (second_loop_recognized out _ Hrec), app_nil_r.
  unfold FitsLoader._prepare_hdulist in Hout.
  destruct (FitsLoader.new_list hdulist) as [e|l]; [discriminate|].
  cbn [rbind] in Hout. exact (sorted_units_idem l out Hout).
Qed.

(** Without the condition on the tables: a table without a name
    that shares its key with a completed image unit changes places
    with it in the second run. *)
Example prepare_hdulist_table_moves :
  let hdulist := [Primary {| phdu_data := None; phdu_header := Ex.phu |};
                  Image {| hdu_data := []; hdu_header := Ex.sci 4 |};
                  BinTable {| bt_columns := []; bt_header := [("EXTVER", HInt 5)] |};
                  Image {| hdu_data := []; hdu_header := [("EXTNAME", HStr "zzz")] |}] in
  exists out out',
    FitsLoader._prepare_hdulist hdulist = ok out /\
    FitsLoader._prepare_hdulist out = ok out' /\ out' <> out.
Proof. eexists _, _. split; [reflexivity|]. split; [reflexivity|]. discriminate. Qed.

Lemma prepare_hdulist_idempotent_witness :
  exists out,
    FitsLoader._prepare_hdulist
      [Primary {| phdu_data := None; phdu_header := Ex.phu |};
       BinTable {| bt_columns := [];
                   bt_header := [("EXTNAME", HStr "OBJCAT"); ("EXTVER", HInt 1)] |};
       Image {| hdu_data := []; hdu_header := [] |};
       Image {| hdu_data := []; hdu_header := Ex.sci 1 |}] = ok out /\
    FitsLoader._prepare_hdulist out = ok out.
Proof.
  eexists. split; [reflexivity|].
  apply (prepare_hdulist_idempotent
           [Primary {| phdu_data := None; phdu_header := Ex.phu |};
            BinTable {| bt_columns := [];
                        bt_header := [("EXTNAME", HStr "OBJCAT"); ("EXTVER", HInt 1)] |};
            Image {| hdu_data := []; hdu_header := [] |};
            Image {| hdu_data := []; hdu_header := Ex.sci 1 |}]).
  - repeat constructor; intros v H; simpl in H;
      repeat (match type of H with
              | context [decide ?P] => destruct (decide P); try discriminate
              end);
      try discriminate; injection H as <-; eexists; reflexivity.
  - repeat constructor; try discriminate; intros _; reflexivity.
  - reflexivity.
Defined.

(** End of the development. *)
